(** * NRT (Network Response Tester): the probing and statistics engine

    A shallow embedding of [src/App.tsx] and [src/types.ts].

    The React component [App] is modelled as a record of its state cells
    ([useState]), its refs ([useRef]) and the part of the browser it talks
    to (live interval timers and probes in flight).  Event handlers become
    functions on that record; the browser delivers events in any order, so
    a run of the application is a fold of [step] over a list of events.
    In [step] an update of the history is run as soon as it is queued;
    [Deferred.step] keeps the queue and lets React render when it will.

    Numbers: elapsed times and identifiers are JavaScript numbers holding
    integers far below 2^53, where double arithmetic is exact; they are
    carried as [Z].  Readings of [performance.now()] are doubles, in
    milliseconds: they are binary64 floats, and their difference is the
    IEEE 754 subtraction. *)

From Stdlib Require Import ZArith Lia.
From Stdlib Require Import Floats.PrimFloat Floats.SpecFloat Floats.FloatOps.
From stdpp Require Import base decidable option list strings pretty.

(* Decimal readings of the clock such as 1080.2 stand for the nearest
   double, as they do in JavaScript. *)
#[global] Set Warnings "-inexact-float".

(* ===================================================================== *)
(** ** The slice of JavaScript the component uses *)
(* ===================================================================== *)

Module JS.

(** Truthiness of a string: only the empty string is falsy. *)
Definition truthy_string (s : string) : bool := negb (String.eqb s "").

(** Truthiness of an optional string ([undefined] is falsy). *)
Definition truthy_opt_string (o : option string) : bool :=
  match o with
  | None => false
  | Some s => truthy_string s
  end.

(** Truthiness of a number: zero is falsy. *)
Definition truthy_number (n : Z) : bool := negb (Z.eqb n 0).

(** [Math.round (num / den)] for integers [num] and [den > 0].
    [Math.round x] is [floor (x + 1/2)]: halves go towards +infinity. *)
Definition Math_round_div (num den : Z) : Z := ((2 * num + den) / (2 * den))%Z.

(** The exact value of a finite double, as a numerator and the exponent
    of a power of two under it: [Some (n, k)] says [x = n / 2^k], with
    [0 <= k].  There is none for a NaN or an infinity. *)
Definition dyadic (x : float) : option (Z * Z) :=
  match Prim2SF x with
  | S754_zero _ => Some (0, 0)%Z
  | S754_finite s m e =>
      let n := if s then Z.neg m else Z.pos m in
      if (0 <=? e)%Z then Some (n * 2 ^ e, 0)%Z else Some (n, - e)%Z
  | S754_infinity _ | S754_nan => None
  end.

(** [Math.round x] for a double [x]: the integer nearest to [x], the
    greater one of two at the same distance, that is [floor (x + 1/2)]
    computed exactly.  On a NaN or an infinity JavaScript answers its
    argument, which no integer represents; the clock never reads one, and
    that case is 0 here. *)
Definition Math_round (x : float) : Z :=
  match dyadic x with
  | Some (n, k) => ((2 * n + 2 ^ k) / 2 ^ (k + 1))%Z
  | None => 0%Z
  end.

(** [Math.min (...xs)].  On an empty argument list JavaScript answers
    [Infinity], which no integer represents: that case is [None]. *)
Definition Math_min (xs : list Z) : option Z :=
  match xs with
  | [] => None
  | x :: rest => Some (foldl Z.min x rest)
  end.

(** [Math.max (...xs)]; [None] stands for [-Infinity] on no arguments. *)
Definition Math_max (xs : list Z) : option Z :=
  match xs with
  | [] => None
  | x :: rest => Some (foldl Z.max x rest)
  end.

(** [xs.slice (0, n)] for [n >= 0]. *)
Definition slice_to {A} (n : nat) (xs : list A) : list A := take n xs.

(** [xs.slice (0, -1)]: everything but the last element. *)
Definition slice_drop_last {A} (xs : list A) : list A :=
  take (length xs - 1) xs.

(** Template literal interpolation of a number. *)
Definition show (n : Z) : string := pretty n.

End JS.

(* ===================================================================== *)
(** ** [types.ts] *)
(* ===================================================================== *)

Inductive RequestType := HTTPS | HTTP.

#[global] Instance RequestType_eq_dec : EqDecision RequestType.
Proof. solve_decision. Defined.

(** [interface PingResult].  [time : number | null] and the optional
    [error] are options; [status] is kept a string, as declared. *)
Record PingResult := mkPingResult {
  id : Z;
  type : RequestType;
  time : option Z;
  status : string;
  error : option string;
  timestamp : string
}.

(** [Omit<PingResult, 'id' | 'timestamp'>], the argument of [addResult]. *)
Record NewResult := mkNewResult {
  n_type : RequestType;
  n_time : option Z;
  n_status : string;
  n_error : option string
}.

(* ===================================================================== *)
(** ** Statistics: the [useEffect] on [results] (App.tsx, lines 20-39) *)
(* ===================================================================== *)

Record Stats := mkStats {
  averageLatency : option Z;
  minLatency : option Z;
  maxLatency : option Z
}.

Definition AllNull : Stats := mkStats None None None.

(** [r => r.time !== null && !r.error] *)
Definition successful (r : PingResult) : bool :=
  bool_decide (time r ≠ None) && negb (JS.truthy_opt_string (error r)).

(** [r => r.time!]: the assertion is erased at run time, and a [null]
    that reached the arithmetic would count as 0. *)
Definition time_of (r : PingResult) : Z := default 0%Z (time r).

Definition computeStats (results : list PingResult) : Stats :=
  let successfulTests := filter (λ r, successful r) results in
  if decide (1 < length successfulTests) then
    let testsForCalculation := JS.slice_drop_last successfulTests in
    let times := map time_of testsForCalculation in
    let totalTime := foldl Z.add 0%Z times in
    mkStats
      (Some (JS.Math_round_div totalTime (Z.of_nat (length testsForCalculation))))
      (JS.Math_min times)
      (JS.Math_max times)
  else AllNull.

(* ===================================================================== *)
(** ** The component state and the browser around it *)
(* ===================================================================== *)

(** A live [window.setInterval (runTest, 2000)].  The callback is the
    [runTest] closure of the render in which the button was pressed, so
    it carries that render's [host] and [requestType]. *)
Record Interval := mkInterval {
  iv_handle : Z;
  iv_host : string;
  iv_type : RequestType
}.

(** One call of [runTest] that got past the host check: the closure's
    [requestType] and [startTime], and whether it has completed.  For the
    image technique [p_done] is the local variable [done]; for the fetch
    technique it records that the awaited promise has settled (a promise
    settles once, and the code after [await] runs once). *)
Record Probe := mkProbe {
  p_type : RequestType;
  p_startTime : float;
  p_done : bool
}.

Record App := mkApp {
  host : string;
  requestType : RequestType;
  isRunning : bool;
  results : list PingResult;
  statusMessage : string;
  intervalRef : option Z;
  testCounterRef : Z;
  (* the browser *)
  isHttps : bool;
  intervals : list Interval;
  nextHandle : Z;
  probes : list Probe
}.

(** The statistics cells are rewritten by the effect after every change
    of [results]; they are a function of the history. *)
Definition stats (s : App) : Stats := computeStats (results s).

Definition set_host (h : string) (s : App) : App :=
  mkApp h (requestType s) (isRunning s) (results s) (statusMessage s)
        (intervalRef s) (testCounterRef s) (isHttps s) (intervals s)
        (nextHandle s) (probes s).

Definition set_requestType (t : RequestType) (s : App) : App :=
  mkApp (host s) t (isRunning s) (results s) (statusMessage s)
        (intervalRef s) (testCounterRef s) (isHttps s) (intervals s)
        (nextHandle s) (probes s).

Definition set_isRunning (b : bool) (s : App) : App :=
  mkApp (host s) (requestType s) b (results s) (statusMessage s)
        (intervalRef s) (testCounterRef s) (isHttps s) (intervals s)
        (nextHandle s) (probes s).

Definition set_results (rs : list PingResult) (s : App) : App :=
  mkApp (host s) (requestType s) (isRunning s) rs (statusMessage s)
        (intervalRef s) (testCounterRef s) (isHttps s) (intervals s)
        (nextHandle s) (probes s).

Definition set_statusMessage (m : string) (s : App) : App :=
  mkApp (host s) (requestType s) (isRunning s) (results s) m
        (intervalRef s) (testCounterRef s) (isHttps s) (intervals s)
        (nextHandle s) (probes s).

Definition set_intervalRef (r : option Z) (s : App) : App :=
  mkApp (host s) (requestType s) (isRunning s) (results s) (statusMessage s)
        r (testCounterRef s) (isHttps s) (intervals s)
        (nextHandle s) (probes s).

Definition set_testCounterRef (c : Z) (s : App) : App :=
  mkApp (host s) (requestType s) (isRunning s) (results s) (statusMessage s)
        (intervalRef s) c (isHttps s) (intervals s)
        (nextHandle s) (probes s).

Definition set_intervals (ivs : list Interval) (s : App) : App :=
  mkApp (host s) (requestType s) (isRunning s) (results s) (statusMessage s)
        (intervalRef s) (testCounterRef s) (isHttps s) ivs
        (nextHandle s) (probes s).

Definition set_nextHandle (h : Z) (s : App) : App :=
  mkApp (host s) (requestType s) (isRunning s) (results s) (statusMessage s)
        (intervalRef s) (testCounterRef s) (isHttps s) (intervals s)
        h (probes s).

Definition set_probes (ps : list Probe) (s : App) : App :=
  mkApp (host s) (requestType s) (isRunning s) (results s) (statusMessage s)
        (intervalRef s) (testCounterRef s) (isHttps s) (intervals s)
        (nextHandle s) ps.

(** The component as first rendered (lines 6-16), on a page served over
    [https:] or not.  Timer handles are positive integers. *)
Definition initial (https : bool) : App :=
  mkApp "google.com" HTTPS false [] "Ready to start." None 0 https [] 1 [].

(** [window.setInterval]: a fresh handle, and the timer is live. *)
Definition setInterval (h : string) (t : RequestType) (s : App) : Z * App :=
  let handle := nextHandle s in
  (handle,
   set_nextHandle (handle + 1)
     (set_intervals (intervals s ++ [mkInterval handle h t]) s)).

(** [clearInterval]: the timer with that handle, if any, is gone. *)
Definition clearInterval (handle : Z) (s : App) : App :=
  set_intervals
    (filter (λ iv, iv_handle iv ≠ handle) (intervals s)) s.

(* ===================================================================== *)
(** ** [addResult] (lines 41-50) *)
(* ===================================================================== *)

(** The update that [addResult] hands to [setResults], as React runs
    it: it reads and advances the counter, and [now_str] is what
    [new Date().toLocaleTimeString()] reads then.  The component of this
    part runs it at the call, which is React at its most eager; in
    [Deferred], further down, it waits for a render. *)
Definition addResult (result : NewResult) (now_str : string) (s : App) : App :=
  let new_entry :=
    mkPingResult (testCounterRef s) (n_type result) (n_time result)
                 (n_status result) (n_error result) now_str in
  set_testCounterRef (testCounterRef s + 1)
    (set_results (JS.slice_to 40 (new_entry :: results s)) s).

(* ===================================================================== *)
(** ** [runTest] (lines 52-123) *)
(* ===================================================================== *)

Definition timeout : Z := 2000.

Definition timeout_message : string :=
  "Timeout (" +:+ JS.show timeout +:+ "ms)".

(** The synchronous part of [runTest]: the host check, the status line,
    the reading of the clock and the request sent.  [now] is the reading
    of [performance.now()]. *)
Definition runTest (currentHost : string) (rt : RequestType) (now : float)
    (s : App) : App :=
  if negb (JS.truthy_string currentHost) then
    set_statusMessage "Error: Host is required." s
  else
    let s := set_statusMessage ("Pinging " +:+ currentHost +:+ "...") s in
    set_probes (probes s ++ [mkProbe rt now false]) s.

(** [Math.round (endTime - startTime)] on two readings of the clock. *)
Definition elapsed_ms (startTime endTime : float) : Z :=
  JS.Math_round (endTime - startTime).

(** What a [catch] clause can receive. *)
Inductive Thrown :=
| ErrorObject (name : string)   (* [error instanceof Error] *)
| OtherValue.

(** Lines 80-87. *)
Definition classify (e : Thrown) : string :=
  match e with
  | ErrorObject name =>
      if String.eqb name "AbortError" then timeout_message
      else "Failed. Check host, network, or console for errors."
  | OtherValue => "Request failed."
  end.

Definition mark_done (i : nat) (s : App) : App :=
  match probes s !! i with
  | Some p => set_probes (<[i := mkProbe (p_type p) (p_startTime p) true]> (probes s)) s
  | None => s
  end.

(** [recordResult] of probe [i] (lines 94-107). *)
Definition recordResult (i : nat) (p : Probe) (time : option Z)
    (status : string) (error : option string) (now_str : string)
    (s : App) : App :=
  if p_done p then s
  else
    let s := mark_done i s in
    if String.eqb status "OK" && bool_decide (time ≠ None) then
      addResult (mkNewResult (p_type p) time status None) now_str s
    else
      addResult (mkNewResult (p_type p) None status error) now_str s.

(** [handleSuccess] (lines 113-116). *)
Definition handleSuccess (i : nat) (p : Probe) (endTime : float)
    (now_str : string) (s : App) : App :=
  recordResult i p (Some (elapsed_ms (p_startTime p) endTime)) "OK" None
               now_str s.

(** The callback of the image technique's [setTimeout] (lines 109-111). *)
Definition handleTimeout (i : nat) (p : Probe) (now_str : string)
    (s : App) : App :=
  recordResult i p None "Error" (Some timeout_message) now_str s.

(** The code after a fulfilled [await fetch] (lines 74-77). *)
Definition fetchFulfilled (i : nat) (p : Probe) (endTime : float)
    (now_str : string) (s : App) : App :=
  if p_done p then s
  else
    addResult
      (mkNewResult (p_type p) (Some (elapsed_ms (p_startTime p) endTime))
                   "OK" None)
      now_str (mark_done i s).

(** The [catch] clause (lines 78-89). *)
Definition fetchRejected (i : nat) (p : Probe) (e : Thrown)
    (now_str : string) (s : App) : App :=
  if p_done p then s
  else
    addResult (mkNewResult (p_type p) None "Error" (Some (classify e)))
              now_str (mark_done i s).

(** What the browser can tell a probe.  [TimerFires] is the probe's own
    [setTimeout]: for the image technique it runs the timeout callback,
    for the fetch technique it aborts the request, which rejects the
    pending promise with an [AbortError]. *)
Inductive Signal :=
| Load (endTime : float)
| LoadError (endTime : float)
| Fulfilled (endTime : float)
| Rejected (e : Thrown)
| TimerFires.

Definition abortError : Thrown := ErrorObject "AbortError".

Definition deliver (i : nat) (sg : Signal) (now_str : string) (s : App) : App :=
  match probes s !! i with
  | None => s
  | Some p =>
      match p_type p, sg with
      | HTTP, Load endTime => handleSuccess i p endTime now_str s
      | HTTP, LoadError endTime => handleSuccess i p endTime now_str s
      | HTTP, TimerFires => handleTimeout i p now_str s
      | HTTPS, Fulfilled endTime => fetchFulfilled i p endTime now_str s
      | HTTPS, Rejected e => fetchRejected i p e now_str s
      | HTTPS, TimerFires => fetchRejected i p abortError now_str s
      | _, _ => s
      end
  end.

(* ===================================================================== *)
(** ** [handleStartStop] (lines 125-144) *)
(* ===================================================================== *)

Definition handleStartStop (now : float) (s : App) : App :=
  if isRunning s then
    let s :=
      match intervalRef s with
      | Some handle =>
          if JS.truthy_number handle then clearInterval handle s else s
      | None => s
      end in
    set_statusMessage "Stopped by user." (set_isRunning false s)
  else if negb (JS.truthy_string (host s)) then
    set_statusMessage "Error: Host cannot be empty." s
  else
    let runTest_now := runTest (host s) (requestType s) in
    let s := set_results [] s in
    let s := set_testCounterRef 0 s in
    let s := set_isRunning true s in
    let s := set_statusMessage "Starting tests..." s in
    let s := runTest_now now s in
    let '(handle, s) := setInterval (host s) (requestType s) s in
    set_intervalRef (Some handle) s.

(* ===================================================================== *)
(** ** Events *)
(* ===================================================================== *)

Inductive Event :=
| ChangeHost (h : string)                 (* typing in the host field *)
| ChangeRequestType (t : RequestType)     (* picking a technique *)
| ClickStartStop (now : float)            (* the button *)
| IntervalFires (handle : Z) (now : float) (* a [setInterval] tick *)
| ProbeSignal (i : nat) (sg : Signal) (now_str : string).

(** The two inputs are [disabled] while running, and the plain technique
    is disabled on a page served over [https:]. *)
Definition step (s : App) (e : Event) : App :=
  match e with
  | ChangeHost h => if isRunning s then s else set_host h s
  | ChangeRequestType t =>
      if isRunning s then s
      else if bool_decide (t = HTTP) && isHttps s then s
      else set_requestType t s
  | ClickStartStop now => handleStartStop now s
  | IntervalFires handle now =>
      match list_find (λ iv, iv_handle iv = handle) (intervals s) with
      | Some (_, iv) => runTest (iv_host iv) (iv_type iv) now s
      | None => s
      end
  | ProbeSignal i sg now_str => deliver i sg now_str s
  end.

Definition run (s : App) (evs : list Event) : App := foldl step s evs.

(* ===================================================================== *)
(** ** The data model of the specification *)
(* ===================================================================== *)

(** The invariant of a probe outcome: exactly one of "elapsed time
    present" and "status is Error" holds, a successful outcome carries no
    error message, and an outcome with an error message carries no
    elapsed time. *)
Definition outcome_invariant (r : PingResult) : Prop :=
  (is_Some (time r) ↔ status r ≠ "Error") ∧
  (status r = "OK" → error r = None) ∧
  (is_Some (error r) → time r = None).

(** An outcome of the data model: its status is one of the two the
    model names, and the invariant holds. *)
Definition well_formed (r : PingResult) : Prop :=
  (status r = "OK" ∨ status r = "Error") ∧ outcome_invariant r.

(** The statistics as the specification words them (section 4.3). *)
Module Reference.

(** "successful outcomes only (status OK, elapsed time present)" *)
Definition is_successful (r : PingResult) : bool :=
  String.eqb (status r) "OK" && bool_decide (is_Some (time r)).

(** "excluding the single oldest successful outcome (the last in the
    newest-first ordering)" *)
Fixpoint without_oldest {A} (xs : list A) : list A :=
  match xs with
  | [] => []
  | [_] => []
  | x :: rest => x :: without_oldest rest
  end.

Fixpoint sum (xs : list Z) : Z :=
  match xs with
  | [] => 0
  | x :: rest => x + sum rest
  end.

(** "round (sum / count) to nearest integer": the quotient, or one more
    when the remainder is at least half the count. *)
Definition round_ratio (total count : Z) : Z :=
  if decide (count ≤ 2 * (total `mod` count))%Z
  then (total `div` count + 1)%Z
  else (total `div` count)%Z.

Fixpoint minimum (x : Z) (xs : list Z) : Z :=
  match xs with
  | [] => x
  | y :: rest => let m := minimum y rest in if decide (x ≤ m)%Z then x else m
  end.

Fixpoint maximum (x : Z) (xs : list Z) : Z :=
  match xs with
  | [] => x
  | y :: rest => let m := maximum y rest in if decide (m ≤ x)%Z then x else m
  end.

Definition elapsed_times (rs : list PingResult) : list Z := omap time rs.

Definition compute (history : list PingResult) : Stats :=
  let ok := filter (λ r, is_successful r) history in
  if decide (length ok < 2) then AllNull
  else
    match elapsed_times (without_oldest ok) with
    | [] => AllNull
    | t :: ts =>
        mkStats (Some (round_ratio (sum (t :: ts)) (Z.of_nat (length (t :: ts)))))
                (Some (minimum t ts))
                (Some (maximum t ts))
    end.

End Reference.

(** [avg] is an integer nearest to [total / count]. *)
Definition nearest_integer (total count avg : Z) : Prop :=
  (Z.abs (2 * (avg * count - total)) ≤ count)%Z.

(** [d] is the integer nearest to the double [x], the greater one of two
    at the same distance: [d - 1/2 <= x < d + 1/2], for [x = n / 2^k]. *)
Definition nearest_to_double (x : float) (d : Z) : Prop :=
  ∃ n k, JS.dyadic x = Some (n, k) ∧ (0 ≤ k)%Z ∧
         (2 ^ k * (2 * d - 1) ≤ 2 * n < 2 ^ k * (2 * d + 1))%Z.

(** [m] is the least element of [xs]. *)
Definition is_minimum (xs : list Z) (m : Z) : Prop :=
  m ∈ xs ∧ ∀ x, x ∈ xs → (m ≤ x)%Z.

(** [m] is the greatest element of [xs]. *)
Definition is_maximum (xs : list Z) (m : Z) : Prop :=
  m ∈ xs ∧ ∀ x, x ∈ xs → (x ≤ m)%Z.

(* ===================================================================== *)
(** ** Appending to the history *)
(* ===================================================================== *)

(** The entry [addResult] builds when the counter reads [c]. *)
Definition entry (c : Z) (result : NewResult) (now_str : string) : PingResult :=
  mkPingResult c (n_type result) (n_time result) (n_status result)
               (n_error result) now_str.

(** A sequence of calls of [addResult], first call first. *)
Definition appends (s : App) (xs : list (NewResult * string)) : App :=
  foldl (λ s x, addResult x.1 x.2 s) s xs.

(** The entries those calls build from a counter reading [c], in the
    order of the calls (oldest first). *)
Definition appended (c : Z) (xs : list (NewResult * string)) : list PingResult :=
  imap (λ k x, entry (c + Z.of_nat k) x.1 x.2) xs.

(** The arguments [runTest] passes to [addResult]. *)
Inductive produced : NewResult → Prop :=
| produced_ok t ms : produced (mkNewResult t (Some ms) "OK" None)
| produced_error t msg : produced (mkNewResult t None "Error" (Some msg)).

(** What an event does to the history and the counter: nothing, a reset,
    or one call of [addResult] on an argument [runTest] builds. *)
Inductive history_change (s s' : App) : Prop :=
| history_same :
    results s' = results s → testCounterRef s' = testCounterRef s →
    history_change s s'
| history_reset :
    results s' = [] → testCounterRef s' = 0%Z →
    history_change s s'
| history_append r ts :
    produced r →
    results s' = take 40 (entry (testCounterRef s) r ts :: results s) →
    testCounterRef s' = (testCounterRef s + 1)%Z →
    history_change s s'.

(** Identifiers in a history, newest first, count down from the counter
    without gaps; the history holds the last 40 of them at most. *)
Definition ids_consecutive (s : App) : Prop :=
  (0 ≤ testCounterRef s)%Z ∧
  length (results s) = Nat.min (Z.to_nat (testCounterRef s)) 40 ∧
  ∀ k r, results s !! k = Some r →
         id r = (testCounterRef s - 1 - Z.of_nat k)%Z.

(* ===================================================================== *)
(** ** Completion of a probe *)
(* ===================================================================== *)

(** The three completion signals of the image technique. *)
Definition is_image_signal (sg : Signal) : bool :=
  match sg with
  | Load _ | LoadError _ | TimerFires => true
  | Fulfilled _ | Rejected _ => false
  end.

(** Probe [i] has completed. *)
Definition done_at (i : nat) (s : App) : Prop :=
  ∃ p, probes s !! i = Some p ∧ p_done p = true.

(** Probe [i] was issued by the image technique. *)
Definition image_probe (i : nat) (s : App) : Prop :=
  ∃ p, probes s !! i = Some p ∧ p_type p = HTTP.

(** The number of outcomes that the signals to probe [i] append while
    the events [evs] are handled from state [s].  A signal appends an
    outcome exactly when it advances the counter. *)
Fixpoint reports (i : nat) (s : App) (evs : list Event) : nat :=
  match evs with
  | [] => 0
  | e :: evs' =>
      (match e with
       | ProbeSignal j _ _ =>
           if decide (j = i) then
             if Z.eqb (testCounterRef (step s e)) (testCounterRef s)
             then 0 else 1
           else 0
       | _ => 0
       end) + reports i (step s e) evs'
  end.

(** What an event does to the probes: nothing, one more probe issued, or
    one probe marked as completed. *)
Inductive probes_change (s s' : App) : Prop :=
| probes_same : probes s' = probes s → probes_change s s'
| probes_issued q : probes s' = probes s ++ [q] → probes_change s s'
| probes_completed j p :
    probes s !! j = Some p →
    probes s' = <[j := mkProbe (p_type p) (p_startTime p) true]> (probes s) →
    probes_change s s'.

(* ===================================================================== *)
(** ** Scenarios *)
(* ===================================================================== *)

(** A successful outcome with the given identifier and elapsed time. *)
Definition ok_outcome (i t : Z) : PingResult :=
  mkPingResult i HTTPS (Some t) "OK" None "12:00:00".

(** Successful elapsed times 120, 80, 150, 100, the oldest last. *)
Definition scenario_history : list PingResult :=
  [ok_outcome 3 120; ok_outcome 2 80; ok_outcome 1 150; ok_outcome 0 100].

(** Forty-five successful probes, appended one at a time. *)
Definition scenario_appends : list (NewResult * string) :=
  replicate 45 (mkNewResult HTTPS (Some 25%Z) "OK" None, "12:00:00").

(** A run in which a probe issued later completes first: the run starts
    and its first probe answers after 30 ms; the tick at 2 s issues a
    second probe, which gets no answer; the tick at 4 s issues a third
    probe while the second is still pending, and the third fails at once;
    then the timeout of the second fires. *)
Definition overtaking_prefix : list Event :=
  [ClickStartStop 0;
   ProbeSignal 0 (Fulfilled 30) "12:00:00";
   IntervalFires 1 2000;
   IntervalFires 1 4000].

Definition overtaking_run : list Event :=
  overtaking_prefix ++
  [ProbeSignal 2 (Rejected (ErrorObject "TypeError")) "12:00:04";
   ProbeSignal 1 TimerFires "12:00:04"].

(** The component with the host field emptied. *)
Definition empty_host : App := set_host "" (initial false).

(** The component after the button was pressed once. *)
Definition started : App := handleStartStop 0 (initial false).

(** The component after the plain technique was picked and the button
    pressed: one probe of the image technique is pending. *)
Definition started_plain : App :=
  handleStartStop 0 (set_requestType HTTP (initial false)).

(** Load, error and timeout all reach the same probe. *)
Definition three_signals : list Event :=
  [ProbeSignal 0 (Load 42.25) "12:00:00";
   ProbeSignal 0 (LoadError 43) "12:00:00";
   ProbeSignal 0 TimerFires "12:00:02"].

(* ===================================================================== *)
(** ** The rest of the component *)
(* ===================================================================== *)

(** The cleanup of the mount effect (App.tsx, lines 146-152), run when
    the component is removed from the page. *)
Definition unmount (s : App) : App :=
  match intervalRef s with
  | Some handle =>
      if JS.truthy_number handle then clearInterval handle s else s
  | None => s
  end.

(** What the scheduler owns: everything but the history, the counter,
    the status line and the probes. *)
Definition scheduler_view (s : App)
  : string * RequestType * bool * option Z * list Interval * Z * bool :=
  (host s, requestType s, isRunning s, intervalRef s, intervals s,
   nextHandle s, isHttps s).

(** Timers against the run state: none while idle; while running exactly
    one, the one [intervalRef] holds, set up for the host and technique
    on display. *)
Definition timer_invariant (s : App) : Prop :=
  (1 ≤ nextHandle s)%Z ∧
  (isRunning s = false → intervals s = []) ∧
  (isRunning s = true →
   ∃ handle,
     intervalRef s = Some handle ∧ handle ≠ 0%Z ∧ host s ≠ "" ∧
     intervals s = [mkInterval handle (host s) (requestType s)]).

(** On a page served over [https:] everything is of the secure
    technique. *)
Definition all_secure (s : App) : Prop :=
  requestType s = HTTPS ∧
  Forall (λ iv, iv_type iv = HTTPS) (intervals s) ∧
  Forall (λ p, p_type p = HTTPS) (probes s) ∧
  Forall (λ r, type r = HTTPS) (results s).

(** [LatencyChart.tsx], up to the data it draws: the points (oldest
    first) and the range of the vertical axis.  The coordinates of the
    path are double arithmetic and are left out. *)
Module LatencyChart.

Record Chart := mkChart {
  data : list PingResult;
  maxTime : option Z;
  minTime : option Z
}.

(** [results.filter (r => r.time !== null).reverse ()] (line 10) *)
Definition chartData (results : list PingResult) : list PingResult :=
  reverse (filter (λ r, time r ≠ None) results).

(** Lines 10-23: nothing is drawn from fewer than two points. *)
Definition render (results : list PingResult) : option Chart :=
  let chartData := chartData results in
  if decide (length chartData < 2) then None
  else
    let times := map time_of chartData in
    Some (mkChart chartData (JS.Math_max times) (JS.Math_min times)).

End LatencyChart.

(** [results.length > 0 && <LatencyChart results={results} />]
    (App.tsx, line 240) *)
Definition chart (s : App) : option LatencyChart.Chart :=
  if decide (0 < length (results s)) then LatencyChart.render (results s)
  else None.

(** [const latestResult = results[0]] (App.tsx, line 154) *)
Definition latestResult (s : App) : option PingResult := results s !! 0.

(** The "Total Time" cell is coloured red when
    [latestResult?.error] is truthy (line 215). *)
Definition total_time_red (s : App) : bool :=
  match latestResult s with
  | Some r => JS.truthy_opt_string (error r)
  | None => false
  end.

(** A failed outcome says why: without elapsed time there is a
    non-empty error message. *)
Definition failure_explained (r : PingResult) : Prop :=
  time r = None → JS.truthy_opt_string (error r) = true.

(** A stopped run with a probe still in flight, restarted on the plain
    technique. *)
Definition restarted_plain : list Event :=
  [ClickStartStop 0; ClickStartStop 500; ChangeRequestType HTTP;
   ClickStartStop 600].

(** A history of one success, one failure and one more success. *)
Definition mixed_history : list PingResult :=
  [ok_outcome 2 40;
   mkPingResult 1 HTTPS None "Error" (Some timeout_message) "12:00:02";
   ok_outcome 0 90].

(* ===================================================================== *)
(** ** Updates of the history wait for React *)
(* ===================================================================== *)

(** [addResult] does not write the history: it hands React an updater,
    [setResults (prev => ...)], and React runs the updater when it next
    renders.  The updater is what reads and advances [testCounterRef] and
    what reads the wall clock, so both happen at that render, after
    whatever was handled in between.  [handleStartStop] likewise hands
    React the constant [setResults ([])], while it resets the counter at
    once.  The definition [addResult] above is the updater at work; here
    are the queue it waits in, and the machine that fills and empties the
    queue.  Updates made in the click handler to the other cells are
    rendered before the next event is handled and stay immediate. *)
Inductive Update :=
| Prepend (result : NewResult)   (* the updater of [addResult] *)
| Clear.                         (* [setResults ([])] *)

Definition is_clear (u : Update) : bool :=
  match u with
  | Clear => true
  | Prepend _ => false
  end.

(** The outcome a signal makes a probe record, if any: the argument of
    the probe's call of [addResult] (lines 77, 88, 103 and 105). *)
Definition completion (p : Probe) (sg : Signal) : option NewResult :=
  if p_done p then None
  else
    match p_type p, sg with
    | HTTP, Load endTime | HTTP, LoadError endTime
    | HTTPS, Fulfilled endTime =>
        Some (mkNewResult (p_type p)
                (Some (elapsed_ms (p_startTime p) endTime)) "OK" None)
    | HTTP, TimerFires =>
        Some (mkNewResult (p_type p) None "Error" (Some timeout_message))
    | HTTPS, Rejected e =>
        Some (mkNewResult (p_type p) None "Error" (Some (classify e)))
    | HTTPS, TimerFires =>
        Some (mkNewResult (p_type p) None "Error" (Some (classify abortError)))
    | _, _ => None
    end.

(** The identifiers of [rs], newest first, count down by one from
    [m - 1]. *)
Definition counts_down (m : Z) (rs : list PingResult) : Prop :=
  ∀ k r, rs !! k = Some r → id r = (m - 1 - Z.of_nat k)%Z.

(** The step of the component, under a name that [Deferred] does not
    shadow. *)
Definition handle_event : App → Event → App := step.

Module Deferred.

(** The component with the updates of [results] that React has not run
    yet, oldest first. *)
Record State := mkState {
  app : App;
  queue : list Update
}.

Definition mounted (https : bool) : State := mkState (initial https) [].

(** React runs one update. *)
Definition apply (now_str : string) (s : App) (u : Update) : App :=
  match u with
  | Prepend result => addResult result now_str s
  | Clear => set_results [] s
  end.

(** React renders: the queued updates run, in the order they were
    queued. *)
Definition render (now_str : string) (q : State) : State :=
  mkState (foldl (apply now_str) (app q) (queue q)) [].

(** A signal to probe [i]: the guard and the bookkeeping are immediate,
    the outcome is queued. *)
Definition deliver (i : nat) (sg : Signal) (q : State) : State :=
  match probes (app q) !! i with
  | None => q
  | Some p =>
      match completion p sg with
      | Some result =>
          mkState (mark_done i (app q)) (queue q ++ [Prepend result])
      | None => q
      end
  end.

(** [handleStartStop] (lines 125-144), with line 137 queued. *)
Definition handleStartStop (now : float) (q : State) : State :=
  let s := app q in
  if isRunning s then
    let s :=
      match intervalRef s with
      | Some handle =>
          if JS.truthy_number handle then clearInterval handle s else s
      | None => s
      end in
    mkState (set_statusMessage "Stopped by user." (set_isRunning false s))
            (queue q)
  else if negb (JS.truthy_string (host s)) then
    mkState (set_statusMessage "Error: Host cannot be empty." s) (queue q)
  else
    let runTest_now := runTest (host s) (requestType s) in
    let pending := queue q ++ [Clear] in
    let s := set_testCounterRef 0 s in
    let s := set_isRunning true s in
    let s := set_statusMessage "Starting tests..." s in
    let s := runTest_now now s in
    let '(handle, s) := setInterval (host s) (requestType s) s in
    mkState (set_intervalRef (Some handle) s) pending.

(** What can happen: an event of the component, or a render.  The time
    string of a probe signal is not used: the wall clock is read when the
    update runs. *)
Inductive Occurrence :=
| Happens (e : Event)
| Renders (now_str : string).

Definition step (q : State) (o : Occurrence) : State :=
  match o with
  | Happens (ProbeSignal i sg _) => deliver i sg q
  | Happens (ClickStartStop now) => handleStartStop now q
  | Happens e => mkState (handle_event (app q) e) (queue q)
  | Renders now_str => render now_str q
  end.

Definition run (q : State) (os : list Occurrence) : State := foldl step q os.

(** Whether a [setResults ([])] is waiting. *)
Definition clear_pending (q : State) : bool := existsb is_clear (queue q).

End Deferred.

(** A stopped run whose probe completes late: the run is started and
    stopped, and the completion of its probe is queued. *)
Definition late_completion_queued : list Deferred.Occurrence :=
  [Deferred.Happens (ClickStartStop 0);
   Deferred.Renders "12:00:00";
   Deferred.Happens (ClickStartStop 500);
   Deferred.Renders "12:00:00";
   Deferred.Happens (ProbeSignal 0 (Fulfilled 900) "")].

(** Then the button is pressed before React renders, React renders, and
    the probe of the new run completes and is rendered. *)
Definition late_completion : list Deferred.Occurrence :=
  late_completion_queued ++
  [Deferred.Happens (ClickStartStop 901);
   Deferred.Renders "12:00:01";
   Deferred.Happens (ProbeSignal 1 (Fulfilled 950) "");
   Deferred.Renders "12:00:01"].

(* ===================================================================== *)
(** ** Arithmetic of the statistics *)
(* ===================================================================== *)

Section Arithmetic.
Local Open Scope Z_scope.

Lemma foldl_add_sum (xs : list Z) (a : Z) :
  foldl Z.add a xs = a + Reference.sum xs.
Proof.
  revert a. induction xs as [|x xs IH]; intros a; simpl.
  - lia.
  - rewrite IH. lia.
Qed.

Lemma foldl_min_acc (xs : list Z) (a b : Z) :
  foldl Z.min (Z.min a b) xs = Z.min a (foldl Z.min b xs).
Proof.
  revert a b. induction xs as [|x xs IH]; intros a b; simpl; [done|].
  rewrite <- Z.min_assoc. apply IH.
Qed.

Lemma foldl_max_acc (xs : list Z) (a b : Z) :
  foldl Z.max (Z.max a b) xs = Z.max a (foldl Z.max b xs).
Proof.
  revert a b. induction xs as [|x xs IH]; intros a b; simpl; [done|].
  rewrite <- Z.max_assoc. apply IH.
Qed.

Lemma foldl_min_minimum (xs : list Z) (x : Z) :
  foldl Z.min x xs = Reference.minimum x xs.
Proof.
  revert x. induction xs as [|y xs IH]; intros x; simpl; [done|].
  rewrite foldl_min_acc, IH. case_decide; lia.
Qed.

Lemma foldl_max_maximum (xs : list Z) (x : Z) :
  foldl Z.max x xs = Reference.maximum x xs.
Proof.
  revert x. induction xs as [|y xs IH]; intros x; simpl; [done|].
  rewrite foldl_max_acc, IH. case_decide; lia.
Qed.

Lemma minimum_is_minimum (xs : list Z) (x : Z) :
  is_minimum (x :: xs) (Reference.minimum x xs).
Proof.
  revert x. induction xs as [|y xs IH]; intros x; simpl.
  - split; [apply list_elem_of_here|].
    intros z Hz. apply list_elem_of_singleton in Hz. lia.
  - destruct (IH y) as [Hin Hle]. case_decide as Hc.
    + split; [apply list_elem_of_here|].
      intros z Hz. apply elem_of_cons in Hz as [->|Hz]; [lia|].
      specialize (Hle z Hz). lia.
    + split; [by apply list_elem_of_further|].
      intros z Hz. apply elem_of_cons in Hz as [->|Hz]; [lia|].
      by apply Hle.
Qed.

Lemma maximum_is_maximum (xs : list Z) (x : Z) :
  is_maximum (x :: xs) (Reference.maximum x xs).
Proof.
  revert x. induction xs as [|y xs IH]; intros x; simpl.
  - split; [apply list_elem_of_here|].
    intros z Hz. apply list_elem_of_singleton in Hz. lia.
  - destruct (IH y) as [Hin Hle]. case_decide as Hc.
    + split; [apply list_elem_of_here|].
      intros z Hz. apply elem_of_cons in Hz as [->|Hz]; [lia|].
      specialize (Hle z Hz). lia.
    + split; [by apply list_elem_of_further|].
      intros z Hz. apply elem_of_cons in Hz as [->|Hz]; [lia|].
      by apply Hle.
Qed.

(** [Math.round] of a ratio is the quotient, rounded up from the half. *)
Lemma Math_round_div_ratio (total count : Z) :
  0 < count →
  JS.Math_round_div total count = Reference.round_ratio total count.
Proof.
  intros Hc. unfold JS.Math_round_div, Reference.round_ratio.
  pose proof (Z.div_mod total count ltac:(lia)) as Hdm.
  pose proof (Z.mod_pos_bound total count Hc) as Hr.
  set (q := total `div` count) in *. set (r := total `mod` count) in *.
  case_decide as Hhalf; symmetry.
  - apply Z.div_unique with (r := 2 * r - count); lia.
  - apply Z.div_unique with (r := 2 * r + count); lia.
Qed.

Lemma Math_round_div_nearest (total count : Z) :
  0 < count →
  nearest_integer total count (JS.Math_round_div total count).
Proof.
  intros Hc. rewrite Math_round_div_ratio by done.
  unfold nearest_integer, Reference.round_ratio.
  pose proof (Z.div_mod total count ltac:(lia)) as Hdm.
  pose proof (Z.mod_pos_bound total count Hc) as Hr.
  set (q := total `div` count) in *. set (r := total `mod` count) in *.
  case_decide; nia.
Qed.

(** The sum of a list lies between its length times a lower bound and
    its length times an upper bound. *)
Lemma sum_bounds (xs : list Z) (lo hi : Z) :
  (∀ x, x ∈ xs → lo ≤ x ≤ hi) →
  lo * Z.of_nat (length xs) ≤ Reference.sum xs ≤ hi * Z.of_nat (length xs).
Proof.
  induction xs as [|x xs IH]; intros Hb; simpl length; simpl Reference.sum.
  - lia.
  - pose proof (Hb x (list_elem_of_here _ _)).
    assert (∀ y, y ∈ xs → lo ≤ y ≤ hi) as Hb'
      by (intros y Hy; apply Hb; by apply list_elem_of_further).
    specialize (IH Hb'). lia.
Qed.

(** The rounded mean lies between any two integer bounds of the mean. *)
Lemma Math_round_div_between (total count lo hi : Z) :
  0 < count →
  lo * count ≤ total ≤ hi * count →
  lo ≤ JS.Math_round_div total count ≤ hi.
Proof.
  intros Hc [Hlo Hhi]. unfold JS.Math_round_div. split.
  - apply Z.div_le_lower_bound; lia.
  - apply Z.lt_succ_r. apply Z.div_lt_upper_bound; lia.
Qed.

Lemma dyadic_exponent (x : float) (n k : Z) :
  JS.dyadic x = Some (n, k) → 0 ≤ k.
Proof.
  unfold JS.dyadic. destruct (Prim2SF x) as [sg|sg| |sg m e]; try done.
  - by intros [= <- <-].
  - destruct (Z.leb_spec 0 e); intros [= <- <-]; lia.
Qed.

(** [Math.round] of a finite double is the nearest integer, halves up. *)
Lemma Math_round_nearest (x : float) :
  is_Some (JS.dyadic x) → nearest_to_double x (JS.Math_round x).
Proof.
  intros [[n k] Hx]. exists n, k.
  pose proof (dyadic_exponent x n k Hx) as Hk.
  split; [done|]. split; [done|].
  unfold JS.Math_round. rewrite Hx.
  assert (0 < 2 ^ k) as Hpow by (by apply Z.pow_pos_nonneg).
  rewrite Z.pow_add_r, Z.pow_1_r by lia.
  pose proof (Z.div_mod (2 * n + 2 ^ k) (2 ^ k * 2) ltac:(lia)) as Hdm.
  pose proof (Z.mod_pos_bound (2 * n + 2 ^ k) (2 ^ k * 2) ltac:(lia)) as Hr.
  set (d := (2 * n + 2 ^ k) `div` (2 ^ k * 2)) in *.
  set (r := (2 * n + 2 ^ k) `mod` (2 ^ k * 2)) in *.
  nia.
Qed.

End Arithmetic.

(* ===================================================================== *)
(** ** The statistics against their reference *)
(* ===================================================================== *)

Section Statistics.
Local Open Scope Z_scope.

Lemma slice_drop_last_snoc {A} (xs : list A) (x : A) :
  JS.slice_drop_last (xs ++ [x]) = xs.
Proof.
  unfold JS.slice_drop_last. rewrite length_app. simpl.
  apply take_app_length'. lia.
Qed.

Lemma without_oldest_snoc {A} (xs : list A) (x : A) :
  Reference.without_oldest (xs ++ [x]) = xs.
Proof.
  induction xs as [|y xs IH]; [done|].
  simpl. rewrite IH. by destruct xs.
Qed.

(** A list of two or more elements ends in an oldest element, and what
    precedes it is not empty. *)
Lemma split_oldest {A} (xs : list A) :
  (1 < length xs)%nat →
  ∃ newest kept oldest, xs = (newest :: kept) ++ [oldest].
Proof.
  intros Hlen. destruct xs as [|x xs]; [simpl in Hlen; lia|].
  destruct (decide (xs = [])) as [->|Hne]; [simpl in Hlen; lia|].
  destruct (exists_last Hne) as (kept & oldest & ->).
  by exists x, kept, oldest.
Qed.

Lemma successful_time (r : PingResult) :
  successful r → ∃ t, time r = Some t.
Proof.
  unfold successful. intros H. apply andb_True in H as [H _].
  apply bool_decide_unpack in H. destruct (time r); [eauto|done].
Qed.

Lemma successful_times (rs : list PingResult) :
  Forall (λ r, successful r) rs →
  map time_of rs = Reference.elapsed_times rs.
Proof.
  unfold Reference.elapsed_times.
  induction 1 as [|r rs Hr _ IH]; [done|].
  destruct (successful_time r Hr) as [t Ht].
  simpl. unfold time_of at 1. rewrite Ht. simpl. by rewrite IH.
Qed.

Lemma Forall_successful_filter (rs : list PingResult) :
  Forall (λ r, successful r) (filter (λ r, successful r) rs).
Proof. apply Forall_forall. intros r Hr. by apply list_elem_of_filter in Hr as [? _]. Qed.

(** On outcomes of the data model the filter of the code and the
    filter of the specification select the same entries. *)
Lemma successful_reference (r : PingResult) :
  well_formed r → (successful r ↔ Reference.is_successful r).
Proof.
  intros [Hst (Hxor & Hok & Herr)].
  unfold successful, Reference.is_successful.
  rewrite !andb_True, !bool_decide_spec, negb_True.
  split.
  - intros [Ht _]. assert (is_Some (time r)) as Hs
      by (destruct (time r); [eauto|done]).
    split; [|done]. apply Hxor in Hs.
    destruct Hst as [Hst|Hst]; [|done].
    rewrite Hst. exact I.
  - intros [Hs Ht]. apply Is_true_true in Hs. apply String.eqb_eq in Hs.
    split; [by destruct Ht as [? ->]|].
    rewrite (Hok Hs). simpl. tauto.
Qed.

Lemma filter_successful_reference (history : list PingResult) :
  Forall well_formed history →
  filter (λ r, successful r) history =
  filter (λ r, Reference.is_successful r) history.
Proof.
  induction 1 as [|r rs Hr _ IH]; [done|].
  rewrite !filter_cons, IH.
  pose proof (successful_reference r Hr).
  repeat case_decide; tauto.
Qed.

(** The two branches of the effect, spelled out. *)
Lemma computeStats_null (results : list PingResult) :
  (length (filter (λ r, successful r) results) ≤ 1)%nat →
  computeStats results = AllNull.
Proof. intros H. unfold computeStats. case_decide; [lia|done]. Qed.

Lemma computeStats_some (results : list PingResult) newest kept oldest :
  filter (λ r, successful r) results = (newest :: kept) ++ [oldest] →
  ∃ t ts,
    Reference.elapsed_times (newest :: kept) = t :: ts ∧
    computeStats results =
      mkStats (Some (JS.Math_round_div (Reference.sum (t :: ts))
                                       (Z.of_nat (length (t :: ts)))))
              (Some (Reference.minimum t ts))
              (Some (Reference.maximum t ts)).
Proof.
  intros Hok. unfold computeStats.
  pose proof (Forall_successful_filter results) as Hall.
  rewrite Hok in *. rewrite slice_drop_last_snoc.
  apply Forall_app in Hall as [Hall _].
  rewrite (successful_times _ Hall).
  rewrite length_app. simpl length. case_decide; [|lia].
  assert (length (Reference.elapsed_times (newest :: kept))
          = length (newest :: kept)) as Hlen
    by (rewrite <- successful_times by done; apply length_map).
  destruct (Reference.elapsed_times (newest :: kept)) as [|t ts] eqn:Hts;
    [done|].
  exists t, ts. split; [done|].
  rewrite foldl_add_sum. simpl JS.Math_min. simpl JS.Math_max.
  rewrite foldl_min_minimum, foldl_max_maximum.
  simpl in Hlen. simpl length. rewrite Hlen. reflexivity.
Qed.

End Statistics.

(** On outcomes of the data model the effect computes the reference. *)
Lemma computeStats_reference_eq (history : list PingResult) :
  Forall well_formed history →
  computeStats history = Reference.compute history.
Proof.
  intros Hwf.
  pose proof (filter_successful_reference history Hwf) as Hfilter.
  unfold Reference.compute. rewrite <- Hfilter.
  case_decide as Hlen.
  - apply computeStats_null. lia.
  - destruct (split_oldest (filter (λ r, successful r) history))
      as (newest & kept & oldest & Hok); [lia|].
    destruct (computeStats_some history newest kept oldest Hok)
      as (t & ts & Hts & Hstats).
    rewrite Hok, without_oldest_snoc, Hts.
    rewrite <- Math_round_div_ratio by (simpl length; lia).
    exact Hstats.
Qed.

(** Claim C1.  On every history of outcomes of the data model the
    statistics effect computes what the reference definition of the
    specification computes: with fewer than two successful outcomes
    (status OK, elapsed time present) the three statistics are null;
    otherwise exactly the oldest successful outcome is left out, the
    average is the sum of the remaining elapsed times divided by their
    count and rounded to a nearest integer, and the minimum and maximum
    are the least and greatest of those same elapsed times.  For
    successful elapsed times 120, 80, 150, 100 (oldest last) the result
    is average 117, minimum 80, maximum 150. *)
Theorem computeStats_meets_reference (history : list PingResult) :
  Forall well_formed history →
  computeStats history = Reference.compute history ∧
  (let ok := filter (λ r, Reference.is_successful r) history in
   (length ok < 2 → computeStats history = AllNull) ∧
   (2 ≤ length ok →
    ∃ remaining oldest avg lo hi,
      ok = remaining ++ [oldest] ∧
      computeStats history = mkStats (Some avg) (Some lo) (Some hi) ∧
      let ts := Reference.elapsed_times remaining in
      length ts = length remaining ∧
      avg = JS.Math_round_div (Reference.sum ts) (Z.of_nat (length ts)) ∧
      nearest_integer (Reference.sum ts) (Z.of_nat (length ts)) avg ∧
      is_minimum ts lo ∧
      is_maximum ts hi)) ∧
  computeStats scenario_history = mkStats (Some 117%Z) (Some 80%Z) (Some 150%Z).
Proof.
  intros Hwf.
  pose proof (filter_successful_reference history Hwf) as Hfilter.
  split; [|split; [|reflexivity]].
  - by apply computeStats_reference_eq.
  - cbv zeta. rewrite <- Hfilter. split.
    + intros Hlen. apply computeStats_null. lia.
    + intros Hlen.
      destruct (split_oldest (filter (λ r, successful r) history))
        as (newest & kept & oldest & Hok); [lia|].
      destruct (computeStats_some history newest kept oldest Hok)
        as (t & ts & Hts & Hstats).
      exists (newest :: kept), oldest. eexists _, _, _.
      split; [exact Hok|]. split; [exact Hstats|].
      rewrite Hts.
      assert (length (t :: ts) = length (newest :: kept)) as Hl.
      { rewrite <- Hts.
        pose proof (Forall_successful_filter history) as Hall.
        rewrite Hok in Hall. apply Forall_app in Hall as [Hall _].
        rewrite <- (successful_times _ Hall). apply length_map. }
      split; [exact Hl|]. split; [reflexivity|].
      split; [apply Math_round_div_nearest; simpl length; lia|].
      split; [apply minimum_is_minimum|apply maximum_is_maximum].
Qed.

Lemma scenario_history_well_formed : Forall well_formed scenario_history.
Proof.
  unfold scenario_history.
  repeat apply Forall_cons_2; try apply Forall_nil_2;
    (split; [by left|]; split; [|split]; simpl; [|done|]).
  all: try (split; [done|by eauto]).
  all: by intros [? ?].
Qed.

(** The theorem of claim C1 at the scenario of the specification. *)
Lemma computeStats_meets_reference_witness :
  Forall well_formed scenario_history ∧
  computeStats scenario_history = Reference.compute scenario_history.
Proof.
  split; [exact scenario_history_well_formed|].
  exact (proj1 (computeStats_meets_reference scenario_history
                  scenario_history_well_formed)).
Defined.

(** Claim C10.  Whenever the statistics effect leaves non-null results
    there are at least two successful outcomes, all three values are
    present, and minimum <= average <= maximum. *)
Theorem computeStats_ordered (history : list PingResult) :
  computeStats history ≠ AllNull →
  1 < length (filter (λ r, successful r) history) ∧
  ∃ avg lo hi,
    computeStats history = mkStats (Some avg) (Some lo) (Some hi) ∧
    (lo ≤ avg ≤ hi)%Z.
Proof.
  intros Hnn.
  assert (1 < length (filter (λ r, successful r) history)) as Hlen.
  { destruct (decide (1 < length (filter (λ r, successful r) history)));
      [done|]. exfalso. apply Hnn, computeStats_null. lia. }
  split; [exact Hlen|].
  destruct (split_oldest _ Hlen) as (newest & kept & oldest & Hok).
  destruct (computeStats_some history newest kept oldest Hok)
    as (t & ts & Hts & Hstats).
  eexists _, _, _. split; [exact Hstats|].
  destruct (minimum_is_minimum ts t) as [_ Hlo].
  destruct (maximum_is_maximum ts t) as [_ Hhi].
  apply Math_round_div_between; [simpl length; lia|].
  apply sum_bounds. intros x Hx. split; [by apply Hlo|by apply Hhi].
Qed.

(** The theorem of claim C10 at the scenario of the specification. *)
Lemma computeStats_ordered_witness :
  computeStats scenario_history ≠ AllNull ∧
  ∃ avg lo hi,
    computeStats scenario_history = mkStats (Some avg) (Some lo) (Some hi) ∧
    (lo ≤ avg ≤ hi)%Z.
Proof.
  assert (computeStats scenario_history ≠ AllNull) as H by (vm_compute; congruence).
  split; [exact H|].
  exact (proj2 (computeStats_ordered scenario_history H)).
Defined.

(* ===================================================================== *)
(** ** How one event changes the history *)
(* ===================================================================== *)

Lemma addResult_results r ts s :
  results (addResult r ts s) = take 40 (entry (testCounterRef s) r ts :: results s).
Proof. reflexivity. Qed.

Lemma addResult_counter r ts s :
  testCounterRef (addResult r ts s) = (testCounterRef s + 1)%Z.
Proof. reflexivity. Qed.

Lemma mark_done_results i s : results (mark_done i s) = results s.
Proof. unfold mark_done. by destruct (probes s !! i). Qed.

Lemma mark_done_counter i s : testCounterRef (mark_done i s) = testCounterRef s.
Proof. unfold mark_done. by destruct (probes s !! i). Qed.

Lemma runTest_results h t now s : results (runTest h t now s) = results s.
Proof. unfold runTest. by destruct (negb _). Qed.

Lemma runTest_counter h t now s :
  testCounterRef (runTest h t now s) = testCounterRef s.
Proof. unfold runTest. by destruct (negb _). Qed.

Lemma recordResult_change i p time status err ts s :
  produced (mkNewResult (p_type p) time status None) ∨ String.eqb status "OK" && bool_decide (time ≠ None) = false →
  produced (mkNewResult (p_type p) None status err) ∨ String.eqb status "OK" && bool_decide (time ≠ None) = true →
  history_change s (recordResult i p time status err ts s).
Proof.
  intros H1 H2. unfold recordResult.
  destruct (p_done p); [by apply history_same|].
  destruct (String.eqb status "OK" && bool_decide (time ≠ None)) eqn:Hc.
  - destruct H1 as [H1|?]; [|done].
    eapply history_append; [exact H1|..].
    + by rewrite addResult_results, mark_done_results, mark_done_counter.
    + by rewrite addResult_counter, mark_done_counter.
  - destruct H2 as [H2|?]; [|done].
    eapply history_append; [exact H2|..].
    + by rewrite addResult_results, mark_done_results, mark_done_counter.
    + by rewrite addResult_counter, mark_done_counter.
Qed.

Lemma deliver_change i sg ts s : history_change s (deliver i sg ts s).
Proof.
  unfold deliver. destruct (probes s !! i) as [p|]; [|by apply history_same].
  destruct (p_type p) eqn:Hty, sg; try (by apply history_same).
  - unfold fetchFulfilled. destruct (p_done p); [by apply history_same|].
    eapply history_append; [apply produced_ok|..].
    + by rewrite addResult_results, mark_done_results, mark_done_counter.
    + by rewrite addResult_counter, mark_done_counter.
  - unfold fetchRejected. destruct (p_done p); [by apply history_same|].
    eapply history_append; [apply produced_error|..].
    + by rewrite addResult_results, mark_done_results, mark_done_counter.
    + by rewrite addResult_counter, mark_done_counter.
  - unfold fetchRejected. destruct (p_done p); [by apply history_same|].
    eapply history_append; [apply produced_error|..].
    + by rewrite addResult_results, mark_done_results, mark_done_counter.
    + by rewrite addResult_counter, mark_done_counter.
  - apply recordResult_change; [left; apply produced_ok|by right].
  - apply recordResult_change; [left; apply produced_ok|by right].
  - apply recordResult_change; [by right|left; apply produced_error].
Qed.

Lemma handleStartStop_change now s : history_change s (handleStartStop now s).
Proof.
  unfold handleStartStop. destruct (isRunning s).
  - apply history_same.
    + destruct (intervalRef s) as [h|]; [|done]. by destruct (JS.truthy_number h).
    + destruct (intervalRef s) as [h|]; [|done]. by destruct (JS.truthy_number h).
  - destruct (negb (JS.truthy_string (host s))); [by apply history_same|].
    apply history_reset; simpl.
    + by rewrite runTest_results.
    + by rewrite runTest_counter.
Qed.

Lemma step_change s e : history_change s (step s e).
Proof.
  destruct e as [h|t|now|handle now|i sg ts]; simpl.
  - destruct (isRunning s); by apply history_same.
  - destruct (isRunning s); [by apply history_same|].
    destruct (bool_decide (t = HTTP) && isHttps s); by apply history_same.
  - apply handleStartStop_change.
  - destruct (list_find _ _) as [[? iv]|]; [|by apply history_same].
    apply history_same; [apply runTest_results|apply runTest_counter].
  - apply deliver_change.
Qed.

(** A property of states that the initial states have and every event
    keeps holds throughout every run. *)
Lemma run_invariant (P : App → Prop) :
  (∀ s e, P s → P (step s e)) →
  ∀ evs s, P s → P (run s evs).
Proof.
  intros Hstep evs. unfold run.
  induction evs as [|e evs IH]; intros s Hs; simpl; [done|].
  apply IH, Hstep, Hs.
Qed.

(* ===================================================================== *)
(** ** Invariants of the history *)
(* ===================================================================== *)

Lemma produced_well_formed c r ts : produced r → well_formed (entry c r ts).
Proof.
  intros [t ms|t msg]; (split; [by auto|]); repeat split; simpl; try done.
  all: try (by eauto); by intros [? ?].
Qed.

Lemma change_well_formed s s' :
  history_change s s' →
  Forall well_formed (results s) → Forall well_formed (results s').
Proof.
  intros [Hr _|Hr _|r ts Hp Hr _] Hwf; rewrite Hr.
  - done.
  - apply Forall_nil_2.
  - apply Forall_take, Forall_cons_2; [by apply produced_well_formed|done].
Qed.

Lemma change_ids_consecutive s s' :
  history_change s s' → ids_consecutive s → ids_consecutive s'.
Proof.
  unfold ids_consecutive.
  intros [Hr Hc|Hr Hc|r ts Hp Hr Hc] (Hpos & Hlen & Hids); rewrite Hr, Hc.
  - done.
  - split; [done|]. split; [done|]. intros k x Hk. by destruct k.
  - split; [lia|]. split.
    + rewrite length_take. simpl length. rewrite Hlen. lia.
    + intros k x Hk. apply lookup_take_Some in Hk as [Hk _].
      destruct k as [|k]; simpl in Hk.
      * injection Hk as <-. simpl. lia.
      * rewrite (Hids k x Hk). lia.
Qed.

Lemma initial_ids_consecutive https : ids_consecutive (initial https).
Proof. split; [done|]. split; [done|]. intros k r Hk. by destruct k. Qed.

Lemma run_well_formed https evs :
  Forall well_formed (results (run (initial https) evs)).
Proof.
  apply (run_invariant (λ s, Forall well_formed (results s))).
  - intros s e. apply change_well_formed, step_change.
  - apply Forall_nil_2.
Qed.

Lemma run_ids_consecutive https evs :
  ids_consecutive (run (initial https) evs).
Proof.
  apply run_invariant; [|apply initial_ids_consecutive].
  intros s e. apply change_ids_consecutive, step_change.
Qed.

(** In the running application the statistics are those of the
    reference definition. *)
Lemma stats_reference https evs :
  stats (run (initial https) evs) =
  Reference.compute (results (run (initial https) evs)).
Proof. apply computeStats_reference_eq, run_well_formed. Qed.

(* ===================================================================== *)
(** ** The bounded history *)
(* ===================================================================== *)

Lemma appends_snoc s xs x :
  appends s (xs ++ [x]) = addResult x.1 x.2 (appends s xs).
Proof. unfold appends. by rewrite foldl_snoc. Qed.

Lemma appended_snoc c xs x :
  appended c (xs ++ [x]) =
  appended c xs ++ [entry (c + Z.of_nat (length xs)) x.1 x.2].
Proof.
  unfold appended. rewrite imap_app. simpl. do 4 f_equal. lia.
Qed.

Lemma length_appended c xs : length (appended c xs) = length xs.
Proof. unfold appended. apply length_imap. Qed.

Lemma appends_counter s xs :
  testCounterRef (appends s xs) = (testCounterRef s + Z.of_nat (length xs))%Z.
Proof.
  induction xs as [|x xs IH] using rev_ind; [simpl; lia|].
  rewrite appends_snoc, addResult_counter, IH, length_app. simpl. lia.
Qed.

Lemma take_cons_take {A} (n : nat) (x : A) (l : list A) :
  take (S n) (x :: take (S n) l) = take (S n) (x :: l).
Proof. simpl. rewrite take_take. do 2 f_equal. lia. Qed.

(** After any calls of [addResult] the history is the 40 newest of the
    new entries followed by the old ones. *)
Lemma appends_results s xs :
  length (results s) ≤ 40 →
  results (appends s xs) =
  take 40 (reverse (appended (testCounterRef s) xs) ++ results s).
Proof.
  intros Hlen. induction xs as [|x xs IH] using rev_ind.
  - simpl. by rewrite take_ge.
  - rewrite appends_snoc, addResult_results, IH, appends_counter.
    rewrite appended_snoc, reverse_snoc. simpl app.
    apply take_cons_take.
Qed.

(** In the running application the history never holds more than 40
    entries. *)
Lemma run_history_bounded https evs :
  length (results (run (initial https) evs)) ≤ 40.
Proof. destruct (run_ids_consecutive https evs) as (_ & -> & _). lia. Qed.

(** Claim C2.  Whatever is appended, a history of at most 40 entries
    stays at most 40 entries long; an append to a history of 40 entries
    puts the new entry in front and drops exactly the last (oldest) one;
    and 45 appends to an empty history leave exactly 40 entries, the 40
    appended last, newest first. *)
Theorem history_capped (s : App) (xs : list (NewResult * string)) :
  (length (results s) ≤ 40 → length (results (appends s xs)) ≤ 40) ∧
  (∀ r ts, length (results s) = 40 →
     ∃ kept oldest,
       results s = kept ++ [oldest] ∧
       results (addResult r ts s) = entry (testCounterRef s) r ts :: kept) ∧
  (results s = [] → length xs = 45 →
     length (results (appends s xs)) = 40 ∧
     results (appends s xs) =
       reverse (drop 5 (appended (testCounterRef s) xs))).
Proof.
  split; [|split].
  - intros Hlen. rewrite appends_results by done. rewrite length_take. lia.
  - intros r ts Hlen.
    destruct (results s) as [|x rest] eqn:Hres; [done|].
    destruct (exists_last (l := x :: rest) ltac:(done)) as (kept & oldest & Hsplit).
    exists kept, oldest. split; [done|].
    rewrite addResult_results, Hres, Hsplit.
    assert (length kept = 39) as Hk.
    { rewrite Hsplit, length_app in Hlen. simpl in Hlen. lia. }
    change (take 40 (?e :: ?l)) with (e :: take 39 l).
    f_equal. by apply take_app_length'.
  - intros Hempty Hlen.
    rewrite appends_results by (rewrite Hempty; simpl; lia).
    rewrite Hempty, app_nil_r, take_reverse, length_appended, Hlen.
    split; [|done].
    rewrite length_reverse, length_drop, length_appended, Hlen. done.
Qed.

(** The theorem of claim C2 at 45 successful probes from the initial
    state. *)
Lemma history_capped_witness :
  results (initial false) = [] ∧ length scenario_appends = 45 ∧
  length (results (appends (initial false) scenario_appends)) = 40.
Proof.
  split; [reflexivity|]. split; [reflexivity|].
  exact (proj1 (proj2 (proj2 (history_capped (initial false) scenario_appends))
                  eq_refl eq_refl)).
Defined.

(* ===================================================================== *)
(** ** The outcome invariant *)
(* ===================================================================== *)

Lemma well_formed_invariant (rs : list PingResult) :
  Forall well_formed rs → Forall outcome_invariant rs.
Proof. intros H. eapply Forall_impl; [exact H|]. by intros r [_ ?]. Qed.

Lemma change_outcome_invariant s s' :
  history_change s s' →
  Forall outcome_invariant (results s) →
  Forall outcome_invariant (results s').
Proof.
  intros [Hr _|Hr _|r ts Hp Hr _] Hinv; rewrite Hr.
  - done.
  - apply Forall_nil_2.
  - apply Forall_take, Forall_cons_2; [|done].
    by destruct (produced_well_formed (testCounterRef s) r ts Hp).
Qed.

(** Claim C8.  Every outcome in the history of the running application
    satisfies the invariant (exactly one of "elapsed time present" and
    "status Error"; no error message on a successful outcome; no elapsed
    time on an outcome with an error message), and every event, a signal
    to a probe of either technique included, preserves it. *)
Theorem outcome_invariant_holds (https : bool) (evs : list Event) :
  Forall outcome_invariant (results (run (initial https) evs)) ∧
  (∀ s e, Forall outcome_invariant (results s) →
          Forall outcome_invariant (results (step s e))) ∧
  (∀ s i sg ts, Forall outcome_invariant (results s) →
                Forall outcome_invariant (results (deliver i sg ts s))).
Proof.
  split; [|split].
  - apply well_formed_invariant, run_well_formed.
  - intros s e. apply change_outcome_invariant, step_change.
  - intros s i sg ts. apply change_outcome_invariant, deliver_change.
Qed.

(** The theorem of claim C8 at the run in which a later probe completes
    first: the three outcomes (a success, a failure, a timeout) satisfy
    the invariant, and so does the history after one more timeout. *)
Lemma outcome_invariant_holds_witness :
  Forall outcome_invariant (results (run (initial false) overtaking_run)) ∧
  Forall outcome_invariant
    (results (step (run (initial false) overtaking_run)
                   (ProbeSignal 1 TimerFires "12:00:06"))).
Proof.
  pose proof (outcome_invariant_holds false overtaking_run) as (H & Hstep & _).
  split; [exact H|]. apply Hstep. exact H.
Defined.

(* ===================================================================== *)
(** ** Sequence identifiers *)
(* ===================================================================== *)


(* ===================================================================== *)
(** ** The button *)
(* ===================================================================== *)

Lemma truthy_string_nonempty (h : string) :
  h ≠ "" → JS.truthy_string h = true.
Proof. intros H. unfold JS.truthy_string. by apply negb_true_iff, String.eqb_neq. Qed.

(** Property X18.  The button is a toggle.  Pressed while running
    it stops the run: the state becomes idle, the timer held in
    [intervalRef] is no longer live, the status reads "Stopped by user.",
    and history, counter and probes in flight are kept.  Pressed while
    idle with a non-empty host it starts a run: the state becomes
    running, history and counter are reset, a probe is issued at once and
    a fresh timer is armed.  It leaves the state as it is only when it is
    pressed while idle with an empty host and the status line already
    reports that. *)
Theorem handleStartStop_toggles (now : float) (s : App) :
  let s' := handleStartStop now s in
  (isRunning s = true →
     isRunning s' = false ∧
     statusMessage s' = "Stopped by user." ∧
     (∀ handle iv, intervalRef s = Some handle → handle ≠ 0%Z →
                   iv ∈ intervals s' → iv_handle iv ≠ handle) ∧
     results s' = results s ∧
     testCounterRef s' = testCounterRef s ∧
     probes s' = probes s) ∧
  (isRunning s = false → host s ≠ "" →
     isRunning s' = true ∧
     statusMessage s' = "Pinging " +:+ host s +:+ "..." ∧
     results s' = [] ∧
     testCounterRef s' = 0%Z ∧
     probes s' = probes s ++ [mkProbe (requestType s) now false] ∧
     intervalRef s' = Some (nextHandle s) ∧
     intervals s' =
       intervals s ++ [mkInterval (nextHandle s) (host s) (requestType s)]) ∧
  (s' = s →
     isRunning s = false ∧ host s = "" ∧
     statusMessage s = "Error: Host cannot be empty.").
Proof.
  intros s'. subst s'. unfold handleStartStop. split; [|split].
  - intros Hrun. rewrite Hrun.
    destruct (intervalRef s) as [h|] eqn:Href.
    + unfold JS.truthy_number. destruct (Z.eqb_spec h 0) as [->|Hh]; simpl.
      * repeat split. intros handle iv [= <-] Hne. done.
      * repeat split. intros handle iv [= <-] _ Hin.
        by apply list_elem_of_filter in Hin as [? _].
    + repeat split. intros handle iv Hsome. done.
  - intros Hidle Hhost. rewrite Hidle, (truthy_string_nonempty _ Hhost).
    simpl. unfold runTest. rewrite (truthy_string_nonempty _ Hhost). simpl.
    repeat split.
  - destruct (isRunning s) eqn:Hrun.
    + intros Heq. apply (f_equal isRunning) in Heq.
      rewrite Hrun in Heq.
      destruct (intervalRef s) as [h|]; [destruct (JS.truthy_number h)|];
        simpl in Heq; discriminate.
    + destruct (negb (JS.truthy_string (host s))) eqn:Hhost.
      * intros Heq. apply (f_equal statusMessage) in Heq. simpl in Heq.
        split; [done|]. split; [|done].
        unfold JS.truthy_string in Hhost. rewrite negb_involutive in Hhost.
        by apply String.eqb_eq.
      * intros Heq. apply (f_equal isRunning) in Heq.
        rewrite Hrun in Heq. unfold runTest in Heq.
        destruct (negb (JS.truthy_string (host s))); [done|].
        simpl in Heq. discriminate.
Qed.

(** The theorem of property X18 at the initial state and at the state
    after one press. *)
Lemma handleStartStop_toggles_witness :
  isRunning (initial false) = false ∧ host (initial false) ≠ "" ∧
  isRunning (handleStartStop 0 (initial false)) = true ∧
  isRunning started = true ∧
  isRunning (handleStartStop 500 started) = false.
Proof.
  split; [reflexivity|]. split; [discriminate|]. split.
  - exact (proj1 (proj1 (proj2 (handleStartStop_toggles 0 (initial false)))
                    eq_refl ltac:(discriminate))).
  - split; [reflexivity|].
    exact (proj1 (proj1 (handleStartStop_toggles 500 started) eq_refl)).
Defined.

(** Claim C4.  Pressing the button while idle with an empty host only
    writes the error "Error: Host cannot be empty." to the status line:
    the state stays idle, history and counter are unchanged, no timer is
    armed and no probe is issued. *)
Theorem start_empty_host_rejected (now : float) (s : App) :
  isRunning s = false → host s = "" →
  let s' := handleStartStop now s in
  s' = set_statusMessage "Error: Host cannot be empty." s ∧
  statusMessage s' = "Error: Host cannot be empty." ∧
  isRunning s' = false ∧
  results s' = results s ∧
  testCounterRef s' = testCounterRef s ∧
  intervals s' = intervals s ∧
  intervalRef s' = intervalRef s ∧
  nextHandle s' = nextHandle s ∧
  probes s' = probes s.
Proof.
  intros Hidle Hhost s'. subst s'. unfold handleStartStop.
  rewrite Hidle, Hhost. simpl. by rewrite Hidle.
Qed.

(** The theorem of claim C4 at the initial component with the host
    field emptied. *)
Lemma start_empty_host_rejected_witness :
  isRunning empty_host = false ∧ host empty_host = "" ∧
  isRunning (handleStartStop 0 empty_host) = false ∧
  results (handleStartStop 0 empty_host) = [] ∧
  intervals (handleStartStop 0 empty_host) = [].
Proof.
  pose proof (start_empty_host_rejected 0 empty_host eq_refl eq_refl) as H.
  cbv zeta in H. destruct H as (_ & _ & Hrun & Hres & _ & Hiv & _).
  split; [reflexivity|]. split; [reflexivity|].
  split; [exact Hrun|]. split; [exact Hres|exact Hiv].
Defined.

(* ===================================================================== *)
(** ** Timeouts and the image technique *)
(* ===================================================================== *)

Lemma timeout_message_text : timeout_message = "Timeout (2000ms)".
Proof. reflexivity. Qed.

Lemma mark_done_probes i p s :
  probes s !! i = Some p →
  probes (mark_done i s) =
  <[i := mkProbe (p_type p) (p_startTime p) true]> (probes s).
Proof. intros H. unfold mark_done. by rewrite H. Qed.

Lemma mark_done_running i s : isRunning (mark_done i s) = isRunning s.
Proof. unfold mark_done. by destruct (probes s !! i). Qed.

Lemma mark_done_intervals i s : intervals (mark_done i s) = intervals s.
Proof. unfold mark_done. by destruct (probes s !! i). Qed.

Lemma mark_done_intervalRef i s : intervalRef (mark_done i s) = intervalRef s.
Proof. unfold mark_done. by destruct (probes s !! i). Qed.

(** Claim C6.  For a probe of either technique that is still pending
    when its 2000 ms timer fires, the outcome appended has status
    "Error", the error message "Timeout (2000ms)" and no elapsed time;
    the timeout is the constant 2000; and the run goes on: the run state
    and the interval timer are untouched. *)
Theorem timeout_recorded (s : App) (i : nat) (p : Probe) (ts : string) :
  probes s !! i = Some p → p_done p = false →
  let s' := deliver i TimerFires ts s in
  timeout = 2000%Z ∧
  results s' =
    take 40 (mkPingResult (testCounterRef s) (p_type p) None "Error"
                          (Some "Timeout (2000ms)") ts :: results s) ∧
  head (results s') =
    Some (mkPingResult (testCounterRef s) (p_type p) None "Error"
                       (Some "Timeout (2000ms)") ts) ∧
  isRunning s' = isRunning s ∧
  intervals s' = intervals s ∧
  intervalRef s' = intervalRef s.
Proof.
  intros Hp Hpending s'. subst s'. split; [reflexivity|].
  assert (deliver i TimerFires ts s =
          addResult (mkNewResult (p_type p) None "Error" (Some timeout_message))
                    ts (mark_done i s)) as ->.
  { unfold deliver. rewrite Hp.
    destruct (p_type p) eqn:Hty;
      unfold fetchRejected, handleTimeout, recordResult;
      rewrite Hpending; simpl; by rewrite ?Hty. }
  rewrite addResult_results, mark_done_results, mark_done_counter.
  split; [reflexivity|]. split; [reflexivity|].
  split; [apply mark_done_running|].
  split; [apply mark_done_intervals|apply mark_done_intervalRef].
Qed.

(** The theorem of claim C6 at the first probe of a run. *)
Lemma timeout_recorded_witness :
  probes started !! 0 = Some (mkProbe HTTPS 0 false) ∧
  results (deliver 0 TimerFires "12:00:02" started) =
    [mkPingResult 0 HTTPS None "Error" (Some "Timeout (2000ms)") "12:00:02"].
Proof.
  split; [reflexivity|].
  exact (proj1 (proj2 (timeout_recorded started 0 (mkProbe HTTPS 0 false)
                         "12:00:02" eq_refl eq_refl))).
Defined.

Lemma handleSuccess_pending i p endTime ts s :
  p_done p = false →
  handleSuccess i p endTime ts s =
  addResult (mkNewResult (p_type p) (Some (elapsed_ms (p_startTime p) endTime))
                         "OK" None)
            ts (mark_done i s).
Proof. intros Hpending. unfold handleSuccess, recordResult. by rewrite Hpending. Qed.

(** Claim C7.  For a pending probe of the image technique the load
    callback and the error callback both append a successful outcome
    (status "OK", the measured elapsed time, no error message); a signal
    other than the timeout never appends anything else, and the timeout
    appends the failure.  The measured elapsed time is the integer
    nearest to the double difference of the reading of the clock in the
    callback and the reading at issue, the greater one of two at the
    same distance. *)
Theorem image_callbacks_succeed (s : App) (i : nat) (p : Probe)
    (endTime : float) (ts : string) :
  probes s !! i = Some p → p_type p = HTTP → p_done p = false →
  let ok t :=
    mkPingResult (testCounterRef s) HTTP
                 (Some (elapsed_ms (p_startTime p) t)) "OK" None ts in
  results (deliver i (Load endTime) ts s) = take 40 (ok endTime :: results s) ∧
  results (deliver i (LoadError endTime) ts s) = take 40 (ok endTime :: results s) ∧
  (∀ sg, sg ≠ TimerFires →
         deliver i sg ts s = s ∨
         ∃ t, results (deliver i sg ts s) = take 40 (ok t :: results s)) ∧
  results (deliver i TimerFires ts s) =
    take 40 (mkPingResult (testCounterRef s) HTTP None "Error"
                          (Some "Timeout (2000ms)") ts :: results s) ∧
  (∀ t, is_Some (JS.dyadic (t - p_startTime p)) →
        nearest_to_double (t - p_startTime p) (elapsed_ms (p_startTime p) t)).
Proof.
  intros Hp Hty Hpending ok.
  assert (∀ t, results (handleSuccess i p t ts s) = take 40 (ok t :: results s))
    as Hok.
  { intros t. rewrite handleSuccess_pending by done.
    rewrite addResult_results, mark_done_results, mark_done_counter.
    unfold entry, ok. simpl. by rewrite Hty. }
  unfold deliver. rewrite Hp, Hty.
  split; [apply Hok|]. split; [apply Hok|]. split.
  - intros sg Hsg. destruct sg as [t|t|t|e|]; try (by left).
    + right. exists t. apply Hok.
    + right. exists t. apply Hok.
  - split; [|intros t; apply Math_round_nearest].
    unfold handleTimeout, recordResult. rewrite Hpending. simpl.
    by rewrite mark_done_results, mark_done_counter, Hty.
Qed.

(** The theorem of claim C7 at a first probe of the image technique
    answered by an error callback after 42.25 ms. *)
Lemma image_callbacks_succeed_witness :
  probes started_plain !! 0 = Some (mkProbe HTTP 0 false) ∧
  results (deliver 0 (LoadError 42.25) "12:00:00" started_plain) =
    [mkPingResult 0 HTTP (Some 42%Z) "OK" None "12:00:00"].
Proof.
  split; [reflexivity|].
  exact (proj1 (proj2 (image_callbacks_succeed started_plain 0
                         (mkProbe HTTP 0 false) 42.25 "12:00:00"
                         eq_refl eq_refl eq_refl))).
Defined.

(* ===================================================================== *)
(** ** The completion guard *)
(* ===================================================================== *)

Lemma addResult_probes r ts s : probes (addResult r ts s) = probes s.
Proof. reflexivity. Qed.

Lemma runTest_probes_change h t now s : probes_change s (runTest h t now s).
Proof.
  unfold runTest. destruct (negb _); [by apply probes_same|].
  by eapply probes_issued.
Qed.

Lemma recordResult_probes_change i p time status err ts s :
  probes s !! i = Some p →
  probes_change s (recordResult i p time status err ts s).
Proof.
  intros Hp. unfold recordResult.
  destruct (p_done p); [by apply probes_same|].
  destruct (_ && _);
    (eapply probes_completed; [exact Hp|];
     by rewrite addResult_probes, (mark_done_probes i p)).
Qed.

Lemma deliver_probes_change i sg ts s : probes_change s (deliver i sg ts s).
Proof.
  unfold deliver. destruct (probes s !! i) as [p|] eqn:Hp;
    [|by apply probes_same].
  destruct (p_type p), sg; try (by apply probes_same);
    try (by apply recordResult_probes_change).
  all: unfold fetchFulfilled, fetchRejected;
    (destruct (p_done p); [by apply probes_same|]);
    (eapply probes_completed; [exact Hp|]);
    by rewrite addResult_probes, (mark_done_probes i p).
Qed.

Lemma handleStartStop_probes_change now s :
  probes_change s (handleStartStop now s).
Proof.
  unfold handleStartStop. destruct (isRunning s).
  - apply probes_same.
    destruct (intervalRef s) as [h|]; [|done]. by destruct (JS.truthy_number h).
  - destruct (negb (JS.truthy_string (host s))); [by apply probes_same|].
    simpl. unfold runTest. destruct (negb _); [by apply probes_same|].
    by eapply probes_issued.
Qed.

Lemma step_probes_change s e : probes_change s (step s e).
Proof.
  destruct e as [h|t|now|handle now|i sg ts]; simpl.
  - destruct (isRunning s); by apply probes_same.
  - destruct (isRunning s); [by apply probes_same|].
    destruct (bool_decide (t = HTTP) && isHttps s); by apply probes_same.
  - apply handleStartStop_probes_change.
  - destruct (list_find _ _) as [[? iv]|]; [|by apply probes_same].
    apply runTest_probes_change.
  - apply deliver_probes_change.
Qed.

(** A probe keeps its technique and start time, and [done] is never
    cleared. *)
Lemma probes_change_lookup s s' i p :
  probes_change s s' → probes s !! i = Some p →
  ∃ p', probes s' !! i = Some p' ∧ p_type p' = p_type p ∧
        (p_done p = true → p_done p' = true).
Proof.
  intros [Hsame|q Hq|j pj Hj Hins] Hp.
  - exists p. by rewrite Hsame.
  - exists p. rewrite Hq, lookup_app_l; [done|]. by eapply lookup_lt_Some.
  - rewrite Hins. destruct (decide (j = i)) as [->|Hne].
    + rewrite list_lookup_insert_eq by (by eapply lookup_lt_Some).
      eexists. split; [done|]. simpl. split; [congruence|done].
    + exists p. by rewrite list_lookup_insert_ne.
Qed.

Lemma step_done_at i s e : done_at i s → done_at i (step s e).
Proof.
  intros (p & Hp & Hd).
  destruct (probes_change_lookup s (step s e) i p (step_probes_change s e) Hp)
    as (p' & Hp' & _ & Hd').
  exists p'. auto.
Qed.

Lemma step_image_probe i s e : image_probe i s → image_probe i (step s e).
Proof.
  intros (p & Hp & Hty).
  destruct (probes_change_lookup s (step s e) i p (step_probes_change s e) Hp)
    as (p' & Hp' & Hty' & _).
  exists p'. split; [done|congruence].
Qed.

Lemma run_done_at i evs s : done_at i s → done_at i (run s evs).
Proof. apply (run_invariant (done_at i)). intros s' e. apply step_done_at. Qed.

(** A signal to a completed probe changes nothing. *)
Lemma deliver_done i sg ts s : done_at i s → deliver i sg ts s = s.
Proof.
  intros (p & Hp & Hd). unfold deliver. rewrite Hp.
  destruct (p_type p), sg; try done;
    unfold handleSuccess, handleTimeout, recordResult,
           fetchFulfilled, fetchRejected;
    by rewrite Hd.
Qed.

(** A signal of the other technique changes nothing. *)
Lemma deliver_foreign i p sg ts s :
  probes s !! i = Some p → p_type p = HTTP → is_image_signal sg = false →
  deliver i sg ts s = s.
Proof.
  intros Hp Hty Hsg. unfold deliver. rewrite Hp, Hty. by destruct sg.
Qed.

(** The first signal to a pending probe of the image technique appends
    one outcome and sets the guard. *)
Lemma deliver_first i p sg ts s :
  probes s !! i = Some p → p_type p = HTTP → p_done p = false →
  is_image_signal sg = true →
  ∃ r, produced r ∧
       deliver i sg ts s = addResult r ts (mark_done i s) ∧
       done_at i (deliver i sg ts s).
Proof.
  intros Hp Hty Hpending Hsg.
  assert (∀ r, done_at i (addResult r ts (mark_done i s))) as Hdone.
  { intros r. eexists. rewrite addResult_probes, (mark_done_probes i p) by done.
    rewrite list_lookup_insert_eq by (by eapply lookup_lt_Some). done. }
  unfold deliver. rewrite Hp, Hty.
  destruct sg as [t|t|t|e|]; try discriminate;
    unfold handleSuccess, handleTimeout, recordResult; rewrite Hpending; simpl;
    eexists; (split; [|split; [reflexivity|apply Hdone]]); constructor.
Qed.

Lemma reports_done i evs s : done_at i s → reports i s evs = 0.
Proof.
  revert s. induction evs as [|e evs IH]; intros s Hd; [done|].
  simpl. rewrite (IH _ (step_done_at i s e Hd)).
  destruct e as [| | | |j sg ts]; try done.
  case_decide as Hj; [|done]. subst j. simpl.
  rewrite (deliver_done i sg ts s Hd). by rewrite Z.eqb_refl.
Qed.

Lemma reports_at_most_once i evs s : image_probe i s → reports i s evs ≤ 1.
Proof.
  revert s. induction evs as [|e evs IH]; intros s Himg; [simpl; lia|].
  pose proof (IH _ (step_image_probe i s e Himg)) as Hrest.
  simpl. destruct e as [| | | |j sg ts]; try exact Hrest.
  case_decide as Hj; [|exact Hrest]. subst j.
  destruct Himg as (p & Hp & Hty).
  destruct (p_done p) eqn:Hd.
  - assert (done_at i s) as Hdone by (by exists p).
    rewrite (reports_done i evs _ (step_done_at i s _ Hdone)).
    simpl. rewrite (deliver_done i sg ts s Hdone), Z.eqb_refl. lia.
  - destruct (is_image_signal sg) eqn:Hsg.
    + destruct (deliver_first i p sg ts s Hp Hty Hd Hsg) as (r & _ & _ & Hdone).
      simpl step. rewrite (reports_done i evs _ Hdone).
      destruct (Z.eqb _ _); lia.
    + simpl step in *. rewrite (deliver_foreign i p sg ts s Hp Hty Hsg) in *.
      rewrite Z.eqb_refl. exact Hrest.
Qed.

(** Claim C9.  For a probe of the image technique, whatever events
    follow in whatever order, the signals to the probe append at most one
    outcome; the first of load, error and timeout to reach the pending
    probe appends its outcome and sets the guard; and once a signal has
    been handled every later signal to the probe leaves the state
    untouched. *)
Theorem image_probe_reports_once (s : App) (i : nat) (p : Probe) :
  probes s !! i = Some p → p_type p = HTTP →
  (∀ evs, reports i s evs ≤ 1) ∧
  (∀ sg ts, is_image_signal sg = true → p_done p = false →
     let s1 := deliver i sg ts s in
     (∃ r, produced r ∧
           results s1 = take 40 (entry (testCounterRef s) r ts :: results s)) ∧
     testCounterRef s1 = (testCounterRef s + 1)%Z ∧
     done_at i s1) ∧
  (∀ sg ts evs sg' ts', is_image_signal sg = true →
     let s2 := run (deliver i sg ts s) evs in
     deliver i sg' ts' s2 = s2).
Proof.
  intros Hp Hty. split; [|split].
  - intros evs. apply reports_at_most_once. by exists p.
  - intros sg ts Hsg Hpending s1. subst s1.
    destruct (deliver_first i p sg ts s Hp Hty Hpending Hsg)
      as (r & Hr & Heq & Hdone).
    split; [|split; [|exact Hdone]].
    + exists r. split; [exact Hr|].
      by rewrite Heq, addResult_results, mark_done_results, mark_done_counter.
    + by rewrite Heq, addResult_counter, mark_done_counter.
  - intros sg ts evs sg' ts' Hsg s2. subst s2.
    apply deliver_done, run_done_at.
    destruct (p_done p) eqn:Hd.
    + assert (done_at i s) as Hdone by (by exists p).
      by rewrite (deliver_done i sg ts s Hdone).
    + by destruct (deliver_first i p sg ts s Hp Hty Hd Hsg) as (r & _ & _ & ?).
Qed.

(** The theorem of claim C9 at a probe of the image technique that is
    told of a load, of an error and of the timeout. *)
Lemma image_probe_reports_once_witness :
  probes started_plain !! 0 = Some (mkProbe HTTP 0 false) ∧
  reports 0 started_plain three_signals ≤ 1 ∧
  results (run started_plain three_signals) =
    [mkPingResult 0 HTTP (Some 42%Z) "OK" None "12:00:00"].
Proof.
  split; [reflexivity|]. split; [|reflexivity].
  exact (proj1 (image_probe_reports_once started_plain 0 (mkProbe HTTP 0 false)
                  eq_refl eq_refl) three_signals).
Defined.

(* ===================================================================== *)
(** ** What a signal does, in one statement *)
(* ===================================================================== *)

(** A signal either changes nothing, or it completes a pending probe:
    the probe is marked and one outcome of the probe's own technique is
    appended. *)
Lemma deliver_cases i sg ts s :
  deliver i sg ts s = s ∨
  ∃ p r,
    probes s !! i = Some p ∧ p_done p = false ∧
    produced r ∧ n_type r = p_type p ∧
    deliver i sg ts s = addResult r ts (mark_done i s).
Proof.
  unfold deliver. destruct (probes s !! i) as [p|] eqn:Hp; [|by left].
  destruct (p_type p) eqn:Hty, sg; try (by left);
    unfold handleSuccess, handleTimeout, recordResult,
           fetchFulfilled, fetchRejected;
    (destruct (p_done p) eqn:Hd; [by left|]); right; simpl;
    exists p; eexists; (split; [done|]); (split; [done|]);
    (split; [|split; [|reflexivity]]); first [constructor | by rewrite Hty].
Qed.

Lemma mark_done_view i s : scheduler_view (mark_done i s) = scheduler_view s.
Proof. unfold mark_done. by destruct (probes s !! i). Qed.

Lemma mark_done_status i s : statusMessage (mark_done i s) = statusMessage s.
Proof. unfold mark_done. by destruct (probes s !! i). Qed.

Lemma runTest_view h t now s :
  scheduler_view (runTest h t now s) = scheduler_view s.
Proof. unfold runTest. by destruct (negb _). Qed.

Lemma deliver_view i sg ts s :
  scheduler_view (deliver i sg ts s) = scheduler_view s.
Proof.
  destruct (deliver_cases i sg ts s) as [->|(p & r & _ & _ & _ & _ & ->)];
    [done|].
  apply mark_done_view.
Qed.

Lemma view_timer_invariant s s' :
  scheduler_view s' = scheduler_view s →
  timer_invariant s → timer_invariant s'.
Proof.
  unfold scheduler_view, timer_invariant.
  intros [= Hh Ht Hr Hi Hivs Hn _]. by rewrite Hh, Ht, Hr, Hi, Hivs, Hn.
Qed.

Lemma handleStartStop_timer_invariant now s :
  timer_invariant s → timer_invariant (handleStartStop now s).
Proof.
  intros Hinv. pose proof Hinv as (Hn & Hidle & Hrun).
  unfold handleStartStop. destruct (isRunning s) eqn:Hr.
  - destruct (Hrun eq_refl) as (h & Href & Hh & _ & Hivs).
    rewrite Href. unfold JS.truthy_number.
    destruct (Z.eqb_spec h 0) as [?|_]; [done|].
    unfold timer_invariant; cbn.
    split; [done|]. split; [|done]. intros _.
    rewrite Hivs. rewrite filter_cons_False by (cbn; tauto). done.
  - destruct (negb (JS.truthy_string (host s))) eqn:Hhost.
    + eapply view_timer_invariant; [reflexivity|exact Hinv].
    + unfold runTest. cbn. rewrite Hhost.
      unfold timer_invariant; cbn.
      split; [lia|]. split; [done|]. intros _.
      exists (nextHandle s). split; [done|]. split; [lia|].
      rewrite (Hidle eq_refl). split; [|done].
      intros Hempty. rewrite Hempty in Hhost. discriminate Hhost.
Qed.

Lemma step_timer_invariant s e :
  timer_invariant s → timer_invariant (step s e).
Proof.
  intros Hinv. destruct e as [h|t|now|handle now|i sg ts]; cbn.
  - destruct (isRunning s) eqn:Hr; [done|].
    destruct Hinv as (Hn & Hidle & _).
    unfold timer_invariant; cbn. rewrite Hr.
    split; [done|]. split; [intros _; by apply Hidle|].
    intros H. discriminate H.
  - destruct (isRunning s) eqn:Hr; [done|].
    destruct (bool_decide (t = HTTP) && isHttps s); [done|].
    destruct Hinv as (Hn & Hidle & _).
    unfold timer_invariant; cbn. rewrite Hr.
    split; [done|]. split; [intros _; by apply Hidle|].
    intros H. discriminate H.
  - by apply handleStartStop_timer_invariant.
  - destruct (list_find _ _) as [[? iv]|]; [|done].
    eapply view_timer_invariant; [apply runTest_view|done].
  - eapply view_timer_invariant; [apply deliver_view|done].
Qed.

Lemma initial_timer_invariant https : timer_invariant (initial https).
Proof. split; [done|]. split; [done|]. intros H. discriminate H. Qed.

Lemma run_timer_invariant https evs :
  timer_invariant (run (initial https) evs).
Proof.
  apply run_invariant; [|apply initial_timer_invariant].
  intros s e. apply step_timer_invariant.
Qed.

(* ===================================================================== *)
(** ** Timers *)
(* ===================================================================== *)

(** Property X1.  While idle the application holds no live interval timer; while
    running it holds exactly one, the one whose handle is in
    [intervalRef], and that timer was set up for the host and technique
    on display, the host being non-empty. *)
Theorem one_timer_per_run (https : bool) (evs : list Event) :
  let s := run (initial https) evs in
  (isRunning s = false → intervals s = []) ∧
  (isRunning s = true →
   ∃ handle,
     intervalRef s = Some handle ∧ handle ≠ 0%Z ∧ host s ≠ "" ∧
     intervals s = [mkInterval handle (host s) (requestType s)]).
Proof. intros s. by destruct (run_timer_invariant https evs) as (_ & ? & ?). Qed.

(** The theorem of property X1 after a run was started, stopped, and started
    again on the plain technique. *)
Lemma one_timer_per_run_witness :
  isRunning (run (initial false) restarted_plain) = true ∧
  ∃ handle,
    intervalRef (run (initial false) restarted_plain) = Some handle ∧
    handle ≠ 0%Z ∧
    host (run (initial false) restarted_plain) ≠ "" ∧
    intervals (run (initial false) restarted_plain) =
      [mkInterval handle "google.com" HTTP].
Proof.
  split; [reflexivity|].
  exact (proj2 (one_timer_per_run false restarted_plain) eq_refl).
Defined.

(** Property X2.  A tick while idle does nothing; a tick of the timer held in
    [intervalRef] while running issues exactly one pending probe, for the
    host and technique on display, and leaves history, counter and
    scheduler alone; a tick of any other handle does nothing. *)
Theorem tick_issues_one_probe (https : bool) (evs : list Event)
    (handle : Z) (now : float) :
  let s := run (initial https) evs in
  let s' := step s (IntervalFires handle now) in
  (isRunning s = false → s' = s) ∧
  (isRunning s = true → intervalRef s ≠ Some handle → s' = s) ∧
  (isRunning s = true → intervalRef s = Some handle →
   probes s' = probes s ++ [mkProbe (requestType s) now false] ∧
   statusMessage s' = "Pinging " +:+ host s +:+ "..." ∧
   results s' = results s ∧
   testCounterRef s' = testCounterRef s ∧
   scheduler_view s' = scheduler_view s).
Proof.
  intros s s'. subst s'.
  assert (timer_invariant s) as (_ & Hidle & Hrun)
    by apply run_timer_invariant.
  clearbody s. cbn.
  split; [|split].
  - intros Hr. by rewrite (Hidle Hr).
  - intros Hr Hne. destruct (Hrun Hr) as (h & Href & _ & _ & Hivs).
    rewrite Hivs. cbn. case_decide as Hh; [|done].
    cbn in Hh. subst h. by rewrite Href in Hne.
  - intros Hr Href. destruct (Hrun Hr) as (h & Href' & _ & Hhost & Hivs).
    rewrite Href in Href'. injection Href' as <-.
    rewrite Hivs. cbn. case_decide as Hh; [|done]. cbn.
    unfold runTest. rewrite (truthy_string_nonempty _ Hhost). cbn.
    by rewrite ?Hivs.
Qed.

(** The theorem of property X2 at the first tick of a run. *)
Lemma tick_issues_one_probe_witness :
  isRunning (run (initial false) [ClickStartStop 0]) = true ∧
  intervalRef (run (initial false) [ClickStartStop 0]) = Some 1%Z ∧
  probes (step (run (initial false) [ClickStartStop 0])
               (IntervalFires 1 2000)) =
    [mkProbe HTTPS 0 false; mkProbe HTTPS 2000 false].
Proof.
  split; [reflexivity|]. split; [reflexivity|].
  exact (proj1 (proj2 (proj2 (tick_issues_one_probe false [ClickStartStop 0]
                                1 2000)) eq_refl eq_refl)).
Defined.

(** Property X3.  Removing the component from the page leaves no live timer behind,
    whatever happened before, and touches nothing but the timers. *)
Theorem unmount_clears_timers (https : bool) (evs : list Event) :
  let s := run (initial https) evs in
  intervals (unmount s) = [] ∧
  results (unmount s) = results s ∧
  probes (unmount s) = probes s ∧
  isRunning (unmount s) = isRunning s.
Proof.
  intros s.
  assert (timer_invariant s) as (_ & Hidle & Hrun)
    by apply run_timer_invariant.
  clearbody s. unfold unmount.
  destruct (isRunning s) eqn:Hr.
  - destruct (Hrun eq_refl) as (h & -> & Hh & _ & Hivs).
    unfold JS.truthy_number. destruct (Z.eqb_spec h 0) as [?|_]; [done|].
    cbn. rewrite Hivs, Hr.
    by rewrite filter_cons_False by (cbn; tauto).
  - pose proof (Hidle eq_refl) as Hivs.
    destruct (intervalRef s) as [h|]; [destruct (JS.truthy_number h)|];
      cbn; rewrite ?Hivs, ?Hr; done.
Qed.

(** Property X4.  While a run is active no event changes the host or the technique:
    the two inputs are disabled, and timers and probes do not write
    them. *)
Theorem configuration_fixed_while_running (s : App) (e : Event) :
  isRunning s = true →
  host (step s e) = host s ∧ requestType (step s e) = requestType s.
Proof.
  intros Hr.
  assert (∀ s', scheduler_view s' = scheduler_view s →
                host s' = host s ∧ requestType s' = requestType s) as Hview.
  { unfold scheduler_view. by intros s' [= -> -> _ _ _ _ _]. }
  destruct e as [h|t|now|handle now|i sg ts]; cbn.
  - by rewrite Hr.
  - by rewrite Hr.
  - unfold handleStartStop. rewrite Hr.
    destruct (intervalRef s) as [h|]; [destruct (JS.truthy_number h)|]; done.
  - destruct (list_find _ _) as [[? iv]|]; [|done].
    apply Hview, runTest_view.
  - apply Hview, deliver_view.
Qed.

(** The theorem of property X4 when somebody types in the
    disabled host field. *)
Lemma configuration_fixed_while_running_witness :
  isRunning started = true ∧
  host (step started (ChangeHost "example.com")) = "google.com".
Proof.
  split; [reflexivity|].
  exact (proj1 (configuration_fixed_while_running started
                  (ChangeHost "example.com") eq_refl)).
Defined.

(* ===================================================================== *)
(** ** Completion of probes of either technique *)
(* ===================================================================== *)

(** Property X5.  A signal to a probe never touches the scheduler (host, technique,
    run state, timers) nor the status line, in any state, running or
    not.  It either changes nothing at all, or it completes one pending
    probe: exactly one outcome is put in front of the history, under the
    next identifier and with the technique the probe was issued with. *)
Theorem completion_leaves_scheduler_alone (i : nat) (sg : Signal)
    (ts : string) (s : App) :
  let s' := deliver i sg ts s in
  scheduler_view s' = scheduler_view s ∧
  statusMessage s' = statusMessage s ∧
  (s' = s ∨
   ∃ p r,
     probes s !! i = Some p ∧ p_done p = false ∧
     results s' = take 40 (entry (testCounterRef s) r ts :: results s) ∧
     n_type r = p_type p ∧
     testCounterRef s' = (testCounterRef s + 1)%Z ∧
     done_at i s').
Proof.
  intros s'. subst s'. split; [apply deliver_view|].
  destruct (deliver_cases i sg ts s) as [->|(p & r & Hp & Hd & _ & Hty & ->)].
  - split; [done|by left].
  - split; [apply mark_done_status|]. right. exists p, r.
    rewrite addResult_results, addResult_counter,
            mark_done_results, mark_done_counter.
    repeat split; try done.
    eexists. rewrite addResult_probes, (mark_done_probes i p) by done.
    rewrite list_lookup_insert_eq by (by eapply lookup_lt_Some). done.
Qed.

(** Property X6.  Only an abort is reported as a timeout: the message of
    a failed fetch is "Timeout (2000ms)" exactly for an [Error] named
    "AbortError"; for an [Error] of any other name it is "Failed. Check
    host, network, or console for errors."; for a thrown value that is
    not an [Error] it is "Request failed."; it is never empty. *)
Theorem timeout_message_only_for_abort (e : Thrown) :
  (classify e = "Timeout (2000ms)" ↔ e = ErrorObject "AbortError") ∧
  (∀ name, e = ErrorObject name → name ≠ "AbortError" →
     classify e = "Failed. Check host, network, or console for errors.") ∧
  (e = OtherValue → classify e = "Request failed.") ∧
  JS.truthy_string (classify e) = true.
Proof.
  destruct e as [name|]; cbn.
  - destruct (String.eqb_spec name "AbortError") as [->|Hne].
    + split; [done|]. split; [|done]. by intros name [= <-] Hne.
    + split; [|split; [done|done]].
      split; [intros H; discriminate H|].
      intros [= ->]. done.
  - split; [|done]. split; intros H; discriminate H.
Qed.

(** Property X7.  For a pending probe of the fetch technique a fulfilled
    request appends a successful outcome with the rounded elapsed time,
    and a rejected request appends a failed outcome with the classified
    message and no elapsed time; the callbacks of the image technique
    mean nothing to it.  The rounded elapsed time is the integer nearest
    to the double difference of the two readings of the clock, the
    greater one of two at the same distance. *)
Theorem fetch_outcomes (s : App) (i : nat) (p : Probe) (ts : string) :
  probes s !! i = Some p → p_type p = HTTPS → p_done p = false →
  (∀ endTime,
     results (deliver i (Fulfilled endTime) ts s) =
     take 40 (mkPingResult (testCounterRef s) HTTPS
                (Some (elapsed_ms (p_startTime p) endTime)) "OK" None ts
              :: results s)) ∧
  (∀ e,
     results (deliver i (Rejected e) ts s) =
     take 40 (mkPingResult (testCounterRef s) HTTPS None "Error"
                (Some (classify e)) ts
              :: results s)) ∧
  (∀ endTime,
     deliver i (Load endTime) ts s = s ∧
     deliver i (LoadError endTime) ts s = s) ∧
  (∀ endTime, is_Some (JS.dyadic (endTime - p_startTime p)) →
     nearest_to_double (endTime - p_startTime p)
                       (elapsed_ms (p_startTime p) endTime)).
Proof.
  intros Hp Hty Hd. unfold deliver. rewrite Hp, Hty.
  unfold fetchFulfilled, fetchRejected. rewrite Hd.
  split; [|split; [|split; [done|intros t; apply Math_round_nearest]]];
    intros x;
    by rewrite addResult_results, mark_done_results, mark_done_counter,
               <- Hty.
Qed.

(** The theorem of property X7 at the first probe of a run, refused by the
    network. *)
Lemma fetch_outcomes_witness :
  probes started !! 0 = Some (mkProbe HTTPS 0 false) ∧
  results (deliver 0 (Rejected (ErrorObject "TypeError")) "12:00:00" started) =
    [mkPingResult 0 HTTPS None "Error"
       (Some "Failed. Check host, network, or console for errors.")
       "12:00:00"].
Proof.
  split; [reflexivity|].
  exact (proj1 (proj2 (fetch_outcomes started 0 (mkProbe HTTPS 0 false)
                         "12:00:00" eq_refl eq_refl eq_refl))
           (ErrorObject "TypeError")).
Defined.

(* ===================================================================== *)
(** ** More on the statistics *)
(* ===================================================================== *)

(** The statistics depend on the history only through its successful
    entries. *)
Lemma computeStats_filter (h h' : list PingResult) :
  filter (λ r, successful r) h = filter (λ r, successful r) h' →
  computeStats h = computeStats h'.
Proof. unfold computeStats. by intros ->. Qed.

Lemma not_successful (r : PingResult) :
  successful r = false → ¬ successful r.
Proof. intros ->. cbn. tauto. Qed.

Lemma filter_without_failure (h1 h2 : list PingResult) (r : PingResult) :
  successful r = false →
  filter (λ r, successful r) (h1 ++ r :: h2) =
  filter (λ r, successful r) (h1 ++ h2).
Proof.
  intros Hr. rewrite !filter_app. f_equal.
  by apply filter_cons_False, not_successful.
Qed.

(** Property X8.  An outcome that is not successful (no elapsed time, or an error
    message) has no influence on the statistics, wherever it stands in
    the history. *)
Theorem failure_leaves_statistics (h1 h2 : list PingResult) (r : PingResult) :
  successful r = false →
  computeStats (h1 ++ r :: h2) = computeStats (h1 ++ h2).
Proof.
  intros Hr. apply computeStats_filter.
  by rewrite filter_without_failure.
Qed.

(** The theorem of property X8 at a timeout between two successes:
    with and without it the statistics are those of the newer success
    alone. *)
Lemma failure_leaves_statistics_witness :
  computeStats mixed_history =
  computeStats [ok_outcome 2 40; ok_outcome 0 90].
Proof.
  exact (failure_leaves_statistics [ok_outcome 2 40] [ok_outcome 0 90]
           (mkPingResult 1 HTTPS None "Error" (Some timeout_message) "12:00:02")
           eq_refl).
Defined.

(** Property X9.  Appending an outcome without elapsed time to a history that is not
    yet full leaves the displayed statistics as they were. *)
Theorem failed_append_keeps_statistics (s : App) (r : NewResult) (ts : string) :
  length (results s) < 40 → n_time r = None →
  stats (addResult r ts s) = stats s.
Proof.
  intros Hlen Hnone. unfold stats. rewrite addResult_results.
  rewrite take_ge by (simpl; lia).
  apply computeStats_filter, (filter_without_failure [] (results s)).
  unfold successful, entry. simpl. by rewrite Hnone.
Qed.

(** The theorem of property X9 at a timeout appended to the
    scenario of four successes. *)
Lemma failed_append_keeps_statistics_witness :
  stats (addResult (mkNewResult HTTPS None "Error" (Some timeout_message))
                   "12:00:10" (set_results scenario_history (initial false))) =
  mkStats (Some 117%Z) (Some 80%Z) (Some 150%Z).
Proof.
  exact (failed_append_keeps_statistics
           (set_results scenario_history (initial false))
           (mkNewResult HTTPS None "Error" (Some timeout_message)) "12:00:10"
           ltac:(simpl; lia) eq_refl).
Defined.

(** Property X10.  With exactly two successful outcomes in the history, average,
    minimum and maximum all are the elapsed time of the newer one. *)
Theorem two_successes_show_the_newer (history : list PingResult)
    (newer older : PingResult) (t : Z) :
  filter (λ r, successful r) history = [newer; older] →
  time newer = Some t →
  computeStats history = mkStats (Some t) (Some t) (Some t).
Proof.
  intros Hok Ht.
  destruct (computeStats_some history newer [] older Hok)
    as (t' & ts & Hts & ->).
  unfold Reference.elapsed_times in Hts. simpl in Hts. rewrite Ht in Hts.
  simpl in Hts. injection Hts as <- <-.
  simpl. f_equal. f_equal. unfold JS.Math_round_div.
  symmetry. apply Z.div_unique with (r := 1%Z); lia.
Qed.

(** The theorem of property X10 at a timeout between two
    successes. *)
Lemma two_successes_show_the_newer_witness :
  computeStats mixed_history = mkStats (Some 40%Z) (Some 40%Z) (Some 40%Z).
Proof.
  exact (two_successes_show_the_newer mixed_history (ok_outcome 2 40)
           (ok_outcome 0 90) 40 eq_refl eq_refl).
Defined.

(** Property X11.  The elapsed time recorded for a probe is the integer
    nearest to the double [endTime - startTime], the greater one when
    two are at the same distance, and it is not negative when that
    difference is not.  The difference is the one of doubles: the
    readings 1080.2 and 2505.7 give 1425 (their exact difference would
    round to 1426), and 0.2 and 0.7 give 0. *)
Theorem elapsed_ms_nearest (startTime endTime : float) :
  is_Some (JS.dyadic (endTime - startTime)) →
  nearest_to_double (endTime - startTime) (elapsed_ms startTime endTime) ∧
  (∀ n k, JS.dyadic (endTime - startTime) = Some (n, k) → (0 ≤ n)%Z →
          (0 ≤ elapsed_ms startTime endTime)%Z) ∧
  elapsed_ms 1080.2 2505.7 = 1425%Z ∧
  elapsed_ms 0.2 0.7 = 0%Z.
Proof.
  intros Hfin. pose proof (Math_round_nearest _ Hfin) as Hnear.
  split; [exact Hnear|]. split; [|split; reflexivity].
  intros n k Hx Hn.
  destruct Hnear as (n' & k' & Hx' & Hk & Hd).
  rewrite Hx in Hx'. injection Hx' as <- <-.
  unfold elapsed_ms in *.
  assert (0 < 2 ^ k)%Z as Hpow by (by apply Z.pow_pos_nonneg).
  nia.
Qed.

(** The theorem of property X11 at a probe answered after 42.25 ms. *)
Lemma elapsed_ms_nearest_witness :
  is_Some (JS.dyadic (42.25 - 0)) ∧ nearest_to_double (42.25 - 0) 42.
Proof.
  assert (is_Some (JS.dyadic (42.25 - 0))) as H by (vm_compute; eauto).
  split; [exact H|]. exact (proj1 (elapsed_ms_nearest 0 42.25 H)).
Defined.

(* ===================================================================== *)
(** ** More on the history *)
(* ===================================================================== *)

(** Property X12.  Appending shifts the entries already in the history towards the
    tail without reordering them: after [n] appends the entry that stood
    at position [k] stands at position [n + k], and it is gone once that
    position is 40 or beyond. *)
Theorem appends_shift (s : App) (xs : list (NewResult * string)) (k : nat) :
  length (results s) ≤ 40 →
  (length xs + k < 40 →
   results (appends s xs) !! (length xs + k) = results s !! k) ∧
  (40 ≤ length xs + k →
   results (appends s xs) !! (length xs + k) = None).
Proof.
  intros Hlen. rewrite appends_results by done. split; intros Hk.
  - rewrite lookup_take_lt by done.
    rewrite lookup_app_r by (rewrite length_reverse, length_appended; lia).
    rewrite length_reverse, length_appended. f_equal. lia.
  - by apply lookup_take_ge.
Qed.

(** The theorem of property X12 at the scenario history after 45 appends: its
    newest entry is gone. *)
Lemma appends_shift_witness :
  results (appends (set_results scenario_history (initial false))
                   scenario_appends) !! (45 + 0) = None.
Proof.
  exact (proj2 (appends_shift (set_results scenario_history (initial false))
                  scenario_appends 0 ltac:(simpl; lia))
           ltac:(simpl; lia)).
Defined.

(* ===================================================================== *)
(** ** The chart *)
(* ===================================================================== *)

Lemma Math_min_is_minimum (xs : list Z) :
  xs ≠ [] → ∃ m, JS.Math_min xs = Some m ∧ is_minimum xs m.
Proof.
  destruct xs as [|x xs]; [done|]. intros _. eexists. split; [done|].
  rewrite foldl_min_minimum. apply minimum_is_minimum.
Qed.

Lemma Math_max_is_maximum (xs : list Z) :
  xs ≠ [] → ∃ m, JS.Math_max xs = Some m ∧ is_maximum xs m.
Proof.
  destruct xs as [|x xs]; [done|]. intros _. eexists. split; [done|].
  rewrite foldl_max_maximum. apply maximum_is_maximum.
Qed.

Lemma successful_has_time (r : PingResult) : successful r → time r ≠ None.
Proof. intros H. by destruct (successful_time r H) as [t ->]. Qed.

(** The chart keeps every entry the statistics keep. *)
Lemma successful_in_chartData (h : list PingResult) (r : PingResult) :
  r ∈ filter (λ r, successful r) h → r ∈ LatencyChart.chartData h.
Proof.
  intros Hr. apply list_elem_of_filter in Hr as [Hs Hin].
  apply elem_of_reverse, list_elem_of_filter.
  split; [by apply successful_has_time|done].
Qed.

Lemma length_chartData (h : list PingResult) :
  length (filter (λ r, successful r) h) ≤ length (LatencyChart.chartData h).
Proof.
  unfold LatencyChart.chartData. rewrite length_reverse.
  induction h as [|r h IH]; [done|].
  rewrite !filter_cons.
  destruct (decide (successful r)) as [Hs|Hs].
  - rewrite decide_True by (by apply successful_has_time). simpl. lia.
  - case_decide; simpl; lia.
Qed.

(** On outcomes of the data model the chart and the statistics select
    the same entries. *)
Lemma chartData_successful (h : list PingResult) :
  Forall well_formed h →
  LatencyChart.chartData h = reverse (filter (λ r, successful r) h).
Proof.
  intros Hwf. unfold LatencyChart.chartData. f_equal.
  induction Hwf as [|r rs Hr _ IH]; [done|].
  rewrite !filter_cons, IH.
  destruct (decide (successful r)) as [Hs|Hs].
  - by rewrite decide_True by (by apply successful_has_time).
  - rewrite decide_False; [done|]. intros Ht. apply Hs.
    destruct Hr as [Hst (Hxor & Hok & _)].
    assert (is_Some (time r)) as Hsome by (destruct (time r); [eauto|done]).
    apply Hxor in Hsome. destruct Hst as [Hst|Hst]; [|done].
    unfold successful. rewrite (Hok Hst). simpl.
    rewrite andb_True. split; [by apply bool_decide_pack|done].
Qed.

Lemma computeStats_not_null (h : list PingResult) :
  computeStats h ≠ AllNull ↔ 1 < length (filter (λ r, successful r) h).
Proof.
  split.
  - intros Hnn.
    destruct (decide (1 < length (filter (λ r, successful r) h))); [done|].
    exfalso. apply Hnn, computeStats_null. lia.
  - intros Hlen.
    destruct (split_oldest _ Hlen) as (newest & kept & oldest & Hok).
    destruct (computeStats_some h newest kept oldest Hok)
      as (t & ts & _ & ->).
    discriminate.
Qed.

(** Property X14.  In the running application the chart is drawn exactly when the
    statistics are not null: both need two successful outcomes. *)
Theorem chart_drawn_iff_statistics (https : bool) (evs : list Event) :
  let s := run (initial https) evs in
  is_Some (chart s) ↔ stats s ≠ AllNull.
Proof.
  intros s. unfold stats. rewrite computeStats_not_null.
  assert (Forall well_formed (results s)) as Hwf by apply run_well_formed.
  clearbody s. unfold chart, LatencyChart.render.
  rewrite (chartData_successful _ Hwf), length_reverse.
  pose proof (length_filter (λ r, successful r) (results s)) as Hle.
  split.
  - intros Hsome. case_decide; [|by destruct Hsome].
    case_decide; [by destruct Hsome|lia].
  - intros Hlen. rewrite decide_True by lia.
    rewrite decide_False by lia. eauto.
Qed.

(** Property X15.  Whenever the statistics are not null the chart is drawn, from at
    least two points, all with an elapsed time, and its vertical range
    contains the minimum and the maximum of the statistics. *)
Theorem chart_range_covers_statistics (history : list PingResult)
    (avg lo hi : Z) :
  computeStats history = mkStats (Some avg) (Some lo) (Some hi) →
  ∃ c mn mx,
    LatencyChart.render history = Some c ∧
    2 ≤ length (LatencyChart.data c) ∧
    Forall (λ r, is_Some (time r)) (LatencyChart.data c) ∧
    LatencyChart.minTime c = Some mn ∧
    LatencyChart.maxTime c = Some mx ∧
    (mn ≤ lo)%Z ∧ (hi ≤ mx)%Z.
Proof.
  intros Hstats.
  assert (1 < length (filter (λ r, successful r) history)) as Hlen.
  { apply computeStats_not_null. rewrite Hstats. discriminate. }
  destruct (split_oldest _ Hlen) as (newest & kept & oldest & Hok).
  destruct (computeStats_some history newest kept oldest Hok)
    as (t & ts & Hts & Hstats').
  rewrite Hstats in Hstats'. injection Hstats' as _ -> ->.
  pose proof (length_chartData history) as Hclen.
  assert (∀ x, x ∈ t :: ts →
               x ∈ map time_of (LatencyChart.chartData history)) as Hsub.
  { intros x Hx. rewrite <- Hts in Hx.
    pose proof (Forall_successful_filter history) as Hall.
    rewrite Hok in Hall. apply Forall_app in Hall as [Hall _].
    rewrite <- (successful_times _ Hall) in Hx.
    apply list_elem_of_In, in_map_iff in Hx as (r & <- & Hr).
    apply list_elem_of_In, in_map. apply list_elem_of_In.
    apply successful_in_chartData. rewrite Hok.
    apply elem_of_app. left. by apply list_elem_of_In. }
  assert (map time_of (LatencyChart.chartData history) ≠ []) as Hne.
  { intros Hnil. apply (f_equal length) in Hnil.
    rewrite length_map in Hnil. simpl in Hnil. lia. }
  destruct (Math_min_is_minimum _ Hne) as (mn & Hmn & _ & Hmin).
  destruct (Math_max_is_maximum _ Hne) as (mx & Hmx & _ & Hmax).
  unfold LatencyChart.render. rewrite decide_False by lia.
  eexists _, mn, mx. split; [reflexivity|]. simpl.
  split; [lia|]. split; [|split; [done|split; [done|]]].
  - apply Forall_forall. intros r Hr.
    apply elem_of_reverse, list_elem_of_filter in Hr as [Hr _].
    destruct (time r); [eauto|done].
  - split.
    + apply Hmin, Hsub. by destruct (minimum_is_minimum ts t).
    + apply Hmax, Hsub. by destruct (maximum_is_maximum ts t).
Qed.

(** The theorem of property X15 at the scenario of four successes:
    the statistics leave out the oldest (100 ms), the chart draws it. *)
Lemma chart_range_covers_statistics_witness :
  computeStats scenario_history =
    mkStats (Some 117%Z) (Some 80%Z) (Some 150%Z) ∧
  ∃ c mn mx,
    LatencyChart.render scenario_history = Some c ∧
    2 ≤ length (LatencyChart.data c) ∧
    Forall (λ r, is_Some (time r)) (LatencyChart.data c) ∧
    LatencyChart.minTime c = Some mn ∧
    LatencyChart.maxTime c = Some mx ∧
    (mn ≤ 80)%Z ∧ (150 ≤ mx)%Z.
Proof.
  split; [reflexivity|].
  exact (chart_range_covers_statistics scenario_history 117 80 150 eq_refl).
Defined.

(* ===================================================================== *)
(** ** Pages served over https *)
(* ===================================================================== *)

Lemma view_fields s s' :
  scheduler_view s' = scheduler_view s →
  requestType s' = requestType s ∧ intervals s' = intervals s ∧
  isHttps s' = isHttps s.
Proof. unfold scheduler_view. by intros [= _ -> _ _ -> _ ->]. Qed.

Lemma runTest_secure h now s :
  all_secure s → all_secure (runTest h HTTPS now s).
Proof.
  intros (Hty & Hivs & Hps & Hrs). unfold runTest.
  destruct (negb _); unfold all_secure; cbn; [done|].
  repeat split; try done. apply Forall_app. split; [done|].
  by apply Forall_singleton.
Qed.

Lemma handleStartStop_secure now s :
  all_secure s → all_secure (handleStartStop now s).
Proof.
  intros Hsec. pose proof Hsec as (Hty & Hivs & Hps & Hrs).
  unfold handleStartStop. destruct (isRunning s).
  - assert (∀ h, all_secure (clearInterval h s)) as Hclear.
    { intros h. unfold all_secure; cbn. repeat split; try done.
      apply Forall_forall. intros iv Hiv.
      apply list_elem_of_filter in Hiv as [_ Hiv].
      by apply (proj1 (Forall_forall _ _) Hivs). }
    destruct (intervalRef s) as [h|]; [destruct (JS.truthy_number h)|];
      try exact Hsec.
    apply Hclear.
  - destruct (negb (JS.truthy_string (host s))) eqn:Hhost; [exact Hsec|].
    unfold runTest. cbn. rewrite Hhost. unfold all_secure; cbn.
    rewrite Hty. repeat split; try done.
    + apply Forall_app. split; [done|]. by apply Forall_singleton.
    + apply Forall_app. split; [done|]. by apply Forall_singleton.
Qed.

Lemma deliver_secure i sg ts s :
  all_secure s → all_secure (deliver i sg ts s).
Proof.
  intros Hsec. pose proof Hsec as (Hty & Hivs & Hps & Hrs).
  destruct (deliver_cases i sg ts s)
    as [->|(p & r & Hp & _ & _ & Hr & Heq)]; [done|].
  destruct (view_fields s _ (deliver_view i sg ts s)) as (Hty' & Hivs' & _).
  assert (p_type p = HTTPS) as Hpty
    by (by apply (proj1 (Forall_lookup _ _) Hps i p)).
  unfold all_secure. rewrite Hty', Hivs'. rewrite Heq.
  rewrite addResult_probes, (mark_done_probes i p) by done.
  rewrite addResult_results, mark_done_results, mark_done_counter.
  repeat split; try done.
  - by apply Forall_insert.
  - apply Forall_take, Forall_cons. split; [|done].
    simpl. by rewrite Hr.
Qed.

Lemma step_secure s e :
  isHttps s = true → all_secure s →
  isHttps (step s e) = true ∧ all_secure (step s e).
Proof.
  intros Hhttps Hsec. pose proof Hsec as (Hty & Hivs & Hps & Hrs).
  destruct e as [h|t|now|handle now|i sg ts]; cbn.
  - by destruct (isRunning s).
  - destruct (isRunning s); [done|]. rewrite Hhttps.
    by destruct t.
  - split; [|by apply handleStartStop_secure].
    unfold handleStartStop.
    destruct (isRunning s);
      [destruct (intervalRef s) as [h|]; [destruct (JS.truthy_number h)|];
       done|].
    destruct (negb (JS.truthy_string (host s))) eqn:Hhost; [done|].
    unfold runTest. cbn. by rewrite Hhost.
  - destruct (list_find _ _) as [[k iv]|] eqn:Hfind; [|done].
    apply list_find_Some in Hfind as (Hk & _ & _).
    assert (iv_type iv = HTTPS) as ->
      by (by apply (proj1 (Forall_lookup _ _) Hivs k iv)).
    destruct (view_fields s _ (runTest_view (iv_host iv) HTTPS now s))
      as (_ & _ & ->).
    split; [done|]. by apply runTest_secure.
  - destruct (view_fields s _ (deliver_view i sg ts s)) as (_ & _ & ->).
    split; [done|]. by apply deliver_secure.
Qed.

(** Property X16.  On a page served over [https:] the plain technique is never in
    play: whatever the events, the technique on display is the secure
    one, every probe issued is a fetch, and every outcome in the history
    is of the secure technique. *)
Theorem secure_page_stays_secure (evs : list Event) :
  let s := run (initial true) evs in
  isHttps s = true ∧
  requestType s = HTTPS ∧
  Forall (λ p, p_type p = HTTPS) (probes s) ∧
  Forall (λ r, type r = HTTPS) (results s).
Proof.
  intros s.
  assert (isHttps s = true ∧ all_secure s) as (Hhttps & Hty & _ & Hps & Hrs).
  { apply (run_invariant (λ s, isHttps s = true ∧ all_secure s)).
    - intros s' e [? ?]. by apply step_secure.
    - split; [done|]. unfold all_secure. cbn. repeat split; constructor. }
  done.
Qed.

(* ===================================================================== *)
(** ** The latest outcome on display *)
(* ===================================================================== *)

Lemma classify_truthy (e : Thrown) : JS.truthy_string (classify e) = true.
Proof.
  destruct e as [name|]; cbn; [|done].
  by destruct (String.eqb name "AbortError").
Qed.

(** Whatever a signal appends, a failure comes with its message. *)
Lemma deliver_message i sg ts s :
  deliver i sg ts s = s ∨
  ∃ r,
    (n_time r = None → JS.truthy_opt_string (n_error r) = true) ∧
    deliver i sg ts s = addResult r ts (mark_done i s).
Proof.
  unfold deliver. destruct (probes s !! i) as [p|] eqn:Hp; [|by left].
  destruct (p_type p), sg; try (by left);
    unfold handleSuccess, handleTimeout, recordResult,
           fetchFulfilled, fetchRejected;
    (destruct (p_done p); [by left|]); right; simpl;
    eexists; (split; [|reflexivity]); simpl;
    first [done | intros _; apply classify_truthy].
Qed.

Lemma handleStartStop_results now s :
  results (handleStartStop now s) = results s ∨
  results (handleStartStop now s) = [].
Proof.
  unfold handleStartStop. destruct (isRunning s).
  - left. destruct (intervalRef s) as [h|]; [|done].
    by destruct (JS.truthy_number h).
  - destruct (negb (JS.truthy_string (host s))); [by left|].
    right. cbn. apply runTest_results.
Qed.

Lemma step_failure_explained s e :
  Forall failure_explained (results s) →
  Forall failure_explained (results (step s e)).
Proof.
  intros Hinv. destruct e as [h|t|now|handle now|i sg ts]; cbn.
  - by destruct (isRunning s).
  - destruct (isRunning s); [done|].
    by destruct (bool_decide (t = HTTP) && isHttps s).
  - destruct (handleStartStop_results now s) as [-> | ->];
      [done|apply Forall_nil_2].
  - destruct (list_find _ _) as [[? iv]|]; [|done].
    by rewrite runTest_results.
  - destruct (deliver_message i sg ts s) as [->|(r & Hr & ->)]; [done|].
    rewrite addResult_results, mark_done_results, mark_done_counter.
    apply Forall_take, Forall_cons. split; [exact Hr|done].
Qed.

Lemma run_failure_explained https evs :
  Forall failure_explained (results (run (initial https) evs)).
Proof.
  apply (run_invariant (λ s, Forall failure_explained (results s))).
  - apply step_failure_explained.
  - apply Forall_nil_2.
Qed.

(** Property X17.  In the running application every outcome without an
    elapsed time carries a non-empty error message, and the "Total Time"
    cell is red exactly when there is a latest outcome and it has no
    elapsed time. *)
Theorem latest_failure_shown_red (https : bool) (evs : list Event) :
  let s := run (initial https) evs in
  Forall failure_explained (results s) ∧
  (total_time_red s = true ↔
   ∃ r, latestResult s = Some r ∧ time r = None).
Proof.
  intros s.
  assert (Forall failure_explained (results s)) as Hexp
    by apply run_failure_explained.
  assert (Forall well_formed (results s)) as Hwf by apply run_well_formed.
  clearbody s. split; [exact Hexp|].
  unfold total_time_red. destruct (latestResult s) as [r|] eqn:Hr.
  - unfold latestResult in Hr.
    pose proof (proj1 (Forall_lookup _ _) Hexp 0 r Hr) as Hr_exp.
    pose proof (proj1 (Forall_lookup _ _) Hwf 0 r Hr) as (_ & _ & _ & Herr).
    split.
    + intros Hred. exists r. split; [done|]. apply Herr.
      destruct (error r); [eauto|discriminate Hred].
    + intros (r' & [= <-] & Hnone). by apply Hr_exp.
  - split; [discriminate|]. by intros (r' & ? & _).
Qed.

(* ===================================================================== *)
(** ** Identifiers when updates wait for React *)
(* ===================================================================== *)

(** What a handler passes to [addResult] is what [completion] names. *)
Lemma deliver_completion i p sg ts s :
  probes s !! i = Some p →
  deliver i sg ts s =
  match completion p sg with
  | Some result => addResult result ts (mark_done i s)
  | None => s
  end.
Proof.
  intros Hp. unfold deliver, completion. rewrite Hp.
  destruct (p_type p) eqn:Hty, sg;
    unfold handleSuccess, handleTimeout, recordResult,
           fetchFulfilled, fetchRejected;
    destruct (p_done p); try done; simpl; by rewrite ?Hty.
Qed.

(** Handling an event and rendering at once is the step of the
    component: the component above is React at its most eager. *)
Lemma render_at_once (s : App) (ts : string) :
  (∀ i sg ts',
     Deferred.app (Deferred.render ts
       (Deferred.step (Deferred.mkState s [])
          (Deferred.Happens (ProbeSignal i sg ts')))) =
     step s (ProbeSignal i sg ts)) ∧
  (∀ e, (∀ i sg ts', e ≠ ProbeSignal i sg ts') →
     Deferred.app (Deferred.render ts
       (Deferred.step (Deferred.mkState s []) (Deferred.Happens e))) =
     step s e).
Proof.
  split.
  - intros i sg ts'. cbn. unfold Deferred.deliver. cbn.
    destruct (probes s !! i) as [p|] eqn:Hp.
    + rewrite (deliver_completion i p sg ts s Hp).
      by destruct (completion p sg).
    + unfold deliver. by rewrite Hp.
  - intros e He. destruct e as [h|t|now|handle now|i sg ts']; try done.
    + unfold Deferred.step, Deferred.handleStartStop, Deferred.render.
      cbn. unfold handleStartStop.
      destruct (isRunning s); [done|].
      destruct (negb (JS.truthy_string (host s))) eqn:Hhost; [done|].
      unfold runTest. cbn. by rewrite Hhost.
    + by destruct (He i sg ts').
Qed.

Lemma counts_down_nil (m : Z) : counts_down m [].
Proof. intros k r Hk. by destruct k. Qed.

Lemma apply_counts_down ts s u :
  counts_down (testCounterRef s) (results s) →
  counts_down (testCounterRef (Deferred.apply ts s u))
              (results (Deferred.apply ts s u)).
Proof.
  intros Hdown. destruct u as [r|]; [|cbn; apply counts_down_nil].
  unfold Deferred.apply. rewrite addResult_results, addResult_counter.
  intros k x Hk. apply lookup_take_Some in Hk as [Hk _].
  destruct k as [|k]; simpl in Hk.
  - injection Hk as <-. simpl. lia.
  - rewrite (Hdown k x Hk). lia.
Qed.

Lemma foldl_apply_counts_down ts us s :
  counts_down (testCounterRef s) (results s) →
  counts_down (testCounterRef (foldl (Deferred.apply ts) s us))
              (results (foldl (Deferred.apply ts) s us)).
Proof.
  revert s. induction us as [|u us IH]; intros s Hs; [done|].
  simpl. by apply IH, apply_counts_down.
Qed.

(** A pending [setResults ([])] makes what was there before irrelevant. *)
Lemma foldl_apply_clear ts us s :
  existsb is_clear us = true →
  counts_down (testCounterRef (foldl (Deferred.apply ts) s us))
              (results (foldl (Deferred.apply ts) s us)).
Proof.
  revert s. induction us as [|u us IH]; intros s Hex; [done|].
  simpl in *. destruct u as [r|]; simpl in Hex.
  - by apply IH.
  - apply foldl_apply_counts_down. cbn. apply counts_down_nil.
Qed.

Lemma existsb_snoc {A} (f : A → bool) (l : list A) (x : A) :
  existsb f (l ++ [x]) = existsb f l || f x.
Proof. rewrite existsb_app. simpl. by rewrite orb_false_r. Qed.


(** The invariant of the history: its identifiers count down without
    gaps from somewhere, and from the counter unless a [setResults ([])]
    is waiting. *)
Lemma step_counts_down q o :
  (∃ m, counts_down m (results (Deferred.app q))) ∧
  (Deferred.clear_pending q = false →
   counts_down (testCounterRef (Deferred.app q)) (results (Deferred.app q))) →
  (∃ m, counts_down m (results (Deferred.app (Deferred.step q o)))) ∧
  (Deferred.clear_pending (Deferred.step q o) = false →
   counts_down (testCounterRef (Deferred.app (Deferred.step q o)))
               (results (Deferred.app (Deferred.step q o)))).
Proof.
  intros [Hsome Hdown]. destruct q as [s us].
  unfold Deferred.clear_pending in *. cbn in Hsome, Hdown.
  destruct o as [e|ts].
  - destruct e as [h|t|now|handle now|i sg ts]; cbn.
    + by destruct (isRunning s).
    + destruct (isRunning s); [done|].
      by destruct (bool_decide (t = HTTP) && isHttps s).
    + unfold Deferred.handleStartStop. cbn.
      destruct (isRunning s).
      { destruct (intervalRef s) as [h|]; [destruct (JS.truthy_number h)|];
          done. }
      destruct (negb (JS.truthy_string (host s))) eqn:Hhost; [done|].
      unfold runTest. cbn. rewrite Hhost. cbn.
      split; [done|]. rewrite existsb_snoc. simpl.
      rewrite orb_true_r. discriminate.
    + destruct (list_find _ _) as [[? iv]|]; [|done].
      by rewrite runTest_results, runTest_counter.
    + unfold Deferred.deliver. cbn.
      destruct (probes s !! i) as [p|]; [|done].
      destruct (completion p sg) as [r|]; [|done]. cbn.
      rewrite mark_done_results, mark_done_counter, existsb_snoc. simpl.
      by rewrite orb_false_r.
  - cbn. assert (counts_down (testCounterRef (foldl (Deferred.apply ts) s us))
                             (results (foldl (Deferred.apply ts) s us))) as H.
    { destruct (existsb is_clear us) eqn:Hex.
      - by apply foldl_apply_clear.
      - by apply foldl_apply_counts_down, Hdown. }
    split; [eauto|done].
Qed.

Lemma run_counts_down https os :
  let q := Deferred.run (Deferred.mounted https) os in
  (∃ m, counts_down m (results (Deferred.app q))) ∧
  (Deferred.clear_pending q = false →
   counts_down (testCounterRef (Deferred.app q)) (results (Deferred.app q))).
Proof.
  cbv zeta. unfold Deferred.run.
  assert (∀ q,
    (∃ m, counts_down m (results (Deferred.app q))) ∧
    (Deferred.clear_pending q = false →
     counts_down (testCounterRef (Deferred.app q)) (results (Deferred.app q))) →
    (∃ m, counts_down m (results (Deferred.app (foldl Deferred.step q os)))) ∧
    (Deferred.clear_pending (foldl Deferred.step q os) = false →
     counts_down (testCounterRef (Deferred.app (foldl Deferred.step q os)))
                 (results (Deferred.app (foldl Deferred.step q os))))) as Hrun.
  { induction os as [|o os IH]; intros q Hq; [done|].
    simpl. by apply IH, step_counts_down. }
  apply Hrun. split; [exists 0%Z|intros _]; apply counts_down_nil.
Qed.

Lemma counts_down_NoDup (m : Z) (rs : list PingResult) :
  counts_down m rs → NoDup (id <$> rs).
Proof.
  intros Hdown. apply NoDup_alt. intros i j x Hi Hj.
  rewrite list_lookup_fmap in Hi, Hj.
  destruct (rs !! i) as [ri|] eqn:Hri; [|done].
  destruct (rs !! j) as [rj|] eqn:Hrj; [|done].
  simpl in Hi, Hj. injection Hi as Hi. injection Hj as Hj.
  rewrite (Hdown i ri Hri) in Hi. rewrite (Hdown j rj Hrj) in Hj. lia.
Qed.



(** The run of that scenario to its end: the late update took the
    identifier 0 and was then emptied away, so the only outcome of the
    new run has the identifier 1. *)
Lemma late_completion_takes_zero :
  let q := Deferred.run (Deferred.mounted false) late_completion in
  results (Deferred.app q) =
    [mkPingResult 1 HTTPS (Some 49%Z) "OK" None "12:00:01"] ∧
  testCounterRef (Deferred.app q) = 2%Z ∧
  Deferred.queue q = [].
Proof. vm_compute. repeat split. Qed.

(** Property X13.  In every state of the component, with updates waiting
    for React or not, the identifiers of the entries in the history are
    pairwise distinct, so the rows of the table have distinct keys. *)
Theorem row_keys_unique (https : bool) (os : list Deferred.Occurrence) :
  NoDup (id <$> results
           (Deferred.app (Deferred.run (Deferred.mounted https) os))).
Proof.
  destruct (run_counts_down https os) as [[m Hdown] _].
  by apply (counts_down_NoDup m).
Qed.
